(** * openpretext-strategies: the strategy validator (scripts/validate.mjs)

    A shallow embedding of [scripts/validate.mjs] and the properties of its
    specification.  The script lists the [strategies/] directory, validates
    every [.json] file ([validateFile]), checks that identifiers are unique
    across files and exits with status 0 or 1 ([main]).

    What the script gets from the platform is kept abstract or explicit:
    - [JSON.parse] is a variable of the section (a text either has a value
      or raises a [SyntaxError] with a message);
    - a string is a sequence of 8-bit characters, compared and sorted by
      their codes;
    - the file system is an explicit argument: the listing of the directory
      and the content of each file, each of which may fail;
    - the console is the list of the calls made to [console.log] and
      [console.error], in order;
    - [process.exit] and an uncaught exception end a computation. *)

From Stdlib Require Import List String Ascii Arith NArith Bool Lia DecimalString.
From Stdlib Require Import Sorted Permutation.
Import ListNotations.

Set Warnings "-register-all".
Local Open Scope string_scope.
Local Open Scope list_scope.

(** String concatenation, the [+] and the template literals of the script. *)
Infix "+++" := String.append (at level 60, right associativity).

(** ** Strings *)

Module Str.

(** The line feed and the double quote of the script's messages. *)
Definition LF : string := String (ascii_of_nat 10) EmptyString.
Definition DQ : string := String (ascii_of_nat 34) EmptyString.

(** [String.prototype.endsWith]. *)
Definition endsWith (s suffix : string) : bool :=
  let n := String.length s in
  let m := String.length suffix in
  (m <=? n)%nat && (substring (n - m) m s =? suffix).

(** [Array.prototype.join] on an array of strings. *)
Definition join (sep : string) (l : list string) : string := String.concat sep l.

(** A non-negative integer in a template literal. *)
Definition of_nat (n : nat) : string := NilEmpty.string_of_uint (Nat.to_uint n).

(** Index of the last ["."] of [s], if any. *)
Fixpoint lastDot (s : string) (i : nat) (found : option nat) : option nat :=
  match s with
  | EmptyString => found
  | String c rest =>
      lastDot rest (S i) (if Ascii.eqb c "." then Some i else found)
  end.

(** [String.prototype.slice(start)]. *)
Definition sliceFrom (start : nat) (s : string) : string :=
  substring start (String.length s - start) s.

End Str.

(** ** node:path, on a name without separator

    The entries of a directory hold no ["/"]; on such a name
    [path.extname] is the part from the last dot on, unless there is no dot,
    the only dot comes first, or the name is [".."]; [path.basename] with a
    suffix strips it when the name ends with it and is longer. *)

Definition extname (path : string) : string :=
  match Str.lastDot path 0 None with
  | None => EmptyString
  | Some 0 => EmptyString
  | Some startDot =>
      if path =? ".." then EmptyString else Str.sliceFrom startDot path
  end.

Definition basename (path suffix : string) : string :=
  if (0 <? String.length suffix)%nat
     && (String.length suffix <=? String.length path)%nat then
    if suffix =? path then EmptyString
    else if Str.endsWith path suffix
         then substring 0 (String.length path - String.length suffix) path
         else path
  else path.

(** ** Values of JSON.parse

    A number is kept as its rendering by [Number.prototype.toString], the
    only thing the script does with one besides [typeof].  The members of an
    object are its own properties in the order of [Object.keys]; [JSON.parse]
    gives each key once. *)

Inductive JSON : Type :=
| JNull
| JBool (b : bool)
| JNumber (rendering : string)
| JString (s : string)
| JArray (elements : list JSON)
| JObject (members : list (string * JSON)).

(** A JavaScript value read from a property: [None] is [undefined]. *)
Definition Value := option JSON.

Fixpoint getOwn (members : list (string * JSON)) (key : string) : Value :=
  match members with
  | [] => None
  | (k, v) :: rest => if k =? key then Some v else getOwn rest key
  end.

(** [o.key]: no property the script reads is on [Object.prototype] or
    [Array.prototype], so only own properties count; the script reads
    properties of objects only. *)
Definition get (o : JSON) (key : string) : Value :=
  match o with
  | JObject members => getOwn members key
  | _ => None
  end.

(** [key in o]. *)
Definition has (o : JSON) (key : string) : bool :=
  match get o key with Some _ => true | None => false end.

(** [Object.keys(o)]. *)
Definition Object_keys (o : JSON) : list string :=
  match o with
  | JObject members => map fst members
  | _ => []
  end.

Definition typeof (v : Value) : string :=
  match v with
  | None => "undefined"
  | Some JNull => "object"
  | Some (JBool _) => "boolean"
  | Some (JNumber _) => "number"
  | Some (JString _) => "string"
  | Some (JArray _) => "object"
  | Some (JObject _) => "object"
  end.

Definition Array_isArray (v : Value) : bool :=
  match v with Some (JArray _) => true | _ => false end.

(** [v === null]. *)
Definition isNull (v : Value) : bool :=
  match v with Some JNull => true | _ => false end.

(** [!v]: [undefined], [null], [false], zero and the empty string are
    falsy. *)
Definition falsy (v : Value) : bool :=
  match v with
  | Some (JString s) => s =? EmptyString
  | Some (JObject _) | Some (JArray _) => false
  | Some (JBool b) => negb b
  | Some (JNumber r) => r =? "0"
  | Some JNull | None => true
  end.

(** [ToString] of a value in a template literal; [None] is the [TypeError]
    of an object that cannot be converted to a primitive.  A parsed object
    is converted by [Object.prototype.toString] unless it has a member named
    [toString], which is never callable, and then [valueOf] gives no
    primitive either.  An array is converted by [join]: [null] elements
    render as the empty string. *)
Fixpoint ToString (v : JSON) : option string :=
  match v with
  | JNull => Some "null"
  | JBool true => Some "true"
  | JBool false => Some "false"
  | JNumber rendering => Some rendering
  | JString s => Some s
  | JArray elements =>
      let element (x : JSON) : option string :=
        match x with JNull => Some EmptyString | _ => ToString x end in
      (fix join (l : list JSON) : option string :=
         match l with
         | [] => Some EmptyString
         | [x] => element x
         | x :: rest =>
             match element x, join rest with
             | Some s, Some r => Some (s +++ "," +++ r)
             | _, _ => None
             end
         end) elements
  | JObject members =>
      match getOwn members "toString" with
      | Some _ => None
      | None => Some "[object Object]"
      end
  end.

(** [VALID_CATEGORIES.includes(v)]: strict equality with one of the strings. *)
Definition includes (l : list string) (v : Value) : bool :=
  match v with
  | Some (JString s) => existsb (String.eqb s) l
  | _ => false
  end.

(** [ToString] of a value that may be [undefined]. *)
Definition ToString_value (v : Value) : option string :=
  match v with
  | None => Some "undefined"
  | Some j => ToString j
  end.

(** ** The platform: results, console, completions *)

(** What a fallible call of the platform gives: a value, or an exception
    (a rejected promise) with its [message]. *)
Inductive result (A : Type) : Type :=
| Ok (a : A)
| Err (message : string).
Arguments Ok {A} a.
Arguments Err {A} message.

(** One call to the console: [console.log(s)] or [console.error(s)]. *)
Inductive call : Type :=
| Stdout (s : string)
| Stderr (s : string).

(** How a computation ends: with a value, with an exception nobody caught,
    or by [process.exit(code)]. *)
Inductive completion (A : Type) : Type :=
| Normal (a : A)
| Throw (message : string)
| Exit (code : nat).
Arguments Normal {A} a.
Arguments Throw {A} message.
Arguments Exit {A} code.

(** A computation: the console calls it made, and how it ended. *)
Definition IO (A : Type) : Type := (list call * completion A)%type.

Definition ret {A : Type} (a : A) : IO A := ([], Normal a).

Definition bind {A B : Type} (m : IO A) (k : A -> IO B) : IO B :=
  match m with
  | (out, Normal a) => let (out', c) := k a in (out ++ out', c)
  | (out, Throw message) => (out, Throw message)
  | (out, Exit code) => (out, Exit code)
  end.

Notation "x <- m ;; k" := (bind m (fun x => k))
  (at level 61, m at next level, right associativity).
Notation "m ;; k" := (bind m (fun _ => k))
  (at level 61, right associativity).

Definition console_log (s : string) : IO unit := ([Stdout s], Normal tt).
Definition console_error (s : string) : IO unit := ([Stderr s], Normal tt).
Definition process_exit {A : Type} (code : nat) : IO A := ([], Exit code).
Definition throw {A : Type} (message : string) : IO A := ([], Throw message).

(** The console calls of a computation, and its completion. *)
Definition output {A : Type} (m : IO A) : list call := fst m.
Definition completes {A : Type} (m : IO A) : completion A := snd m.

(** [for (const x of l) body(x)]. *)
Fixpoint for_of {X : Type} (l : list X) (body : X -> IO unit) : IO unit :=
  match l with
  | [] => ret tt
  | x :: rest => body x ;; for_of rest body
  end.

(** The [strategies/] directory: its listing ([readdir]) and the text of
    each entry ([readFile] of the entry joined to the directory). *)
Record FileSystem : Type := {
  readdir : result (list string);
  readFile : string -> result string
}.

(** ** The script's constants *)

Definition VALID_CATEGORIES : list string :=
  ["general"; "pattern"; "workflow"; "organism"].

Definition lowerAlnum (c : ascii) : bool :=
  let n := nat_of_ascii c in
  ((97 <=? n)%nat && (n <=? 122)%nat) || ((48 <=? n)%nat && (n <=? 57)%nat).

(** [/^[a-z0-9]+(-[a-z0-9]+)*\.json$/] read from the left: [inSegment]
    says that the character before was one of [a-z0-9].  A hyphen must be
    followed by such a character; any other character must start the final
    [.json]. *)
Fixpoint matchSegments (s : string) (inSegment : bool) : bool :=
  match s with
  | EmptyString => false
  | String c rest =>
      if lowerAlnum c then matchSegments rest true
      else if inSegment then
        if Ascii.eqb c "-" then matchSegments rest false
        else String c rest =? ".json"
      else false
  end.

(** [FILENAME_RE.test(filename)]. *)
Definition FILENAME_RE_test (filename : string) : bool :=
  matchSegments filename false.

Definition knownFields : list string :=
  ["id"; "name"; "description"; "category"; "supplement"; "examples"].

(** [knownFields.has(key)]. *)
Definition Set_has (set : list string) (key : string) : bool :=
  existsb (String.eqb key) set.

Definition quoted (s : string) : string := Str.DQ +++ s +++ Str.DQ.

(** ** validateFile *)

(** The three locals of [validateFile]: [errors], [warnings] and [id]. *)
Record Locals : Type := {
  errors : list string;
  warnings : list string;
  id : option string
}.

(** Their values at the top of [validateFile], lines 75-77. *)
Definition start : Locals := {| errors := []; warnings := []; id := None |}.

(** [errors.push(msg)], [warnings.push(msg)], [id = s]. *)
Definition pushError (l : Locals) (msg : string) : Locals :=
  {| errors := errors l ++ [msg]; warnings := warnings l; id := id l |}.
Definition pushWarning (l : Locals) (msg : string) : Locals :=
  {| errors := errors l; warnings := warnings l ++ [msg]; id := id l |}.
Definition setId (l : Locals) (s : string) : Locals :=
  {| errors := errors l; warnings := warnings l; id := Some s |}.

(** What [validateFile] returns: [{ errors, warnings, id }], the first two
    being the lengths of the lists. *)
Record Report : Type := {
  errorCount : nat;
  warningCount : nat;
  reportedId : option string
}.

(** [printResults(errors, warnings)], lines 171-182. *)
Definition printResults (errors warnings : list string) : IO unit :=
  if (List.length errors =? 0)%nat && (List.length warnings =? 0)%nat then
    console_log "  ok"
  else
    for_of errors (fun msg => console_log ("  FAIL  " +++ msg)) ;;
    for_of warnings (fun msg => console_log ("  WARN  " +++ msg)).

(** Line 82-84: the filename convention. *)
Definition checkFilename (filename : string) (l : Locals) : Locals :=
  if negb (FILENAME_RE_test filename) then
    pushError l ("Filename " +++ quoted filename
                 +++ " must be lowercase, hyphenated (e.g., my-strategy.json)")
  else l.

(** Lines 105-114: [id], and its comparison with the stem of the filename. *)
Definition checkId (filename : string) (parsed : JSON) (l : Locals) : Locals :=
  if negb (typeof (get parsed "id") =? "string") || falsy (get parsed "id") then
    pushError l ("Required field " +++ quoted "id"
                 +++ " is missing or not a non-empty string")
  else
    match get parsed "id" with
    | Some (JString parsed_id) =>
        let l := setId l parsed_id in
        let stem := basename filename (extname filename) in
        if negb (parsed_id =? stem) then
          pushWarning l ("id " +++ quoted parsed_id
                         +++ " does not match filename stem " +++ quoted stem)
        else l
    | _ => l
    end.

(** Lines 116-118: [name]. *)
Definition checkName (parsed : JSON) (l : Locals) : Locals :=
  if negb (typeof (get parsed "name") =? "string") || falsy (get parsed "name") then
    pushError l ("Required field " +++ quoted "name"
                 +++ " is missing or not a non-empty string")
  else l.

(** Lines 120-122: [supplement]. *)
Definition checkSupplement (parsed : JSON) (l : Locals) : Locals :=
  if negb (typeof (get parsed "supplement") =? "string") then
    pushError l ("Required field " +++ quoted "supplement"
                 +++ " is missing or not a string")
  else l.

(** Lines 125-129: [description]. *)
Definition checkDescription (parsed : JSON) (l : Locals) : Locals :=
  if negb (has parsed "description") then
    pushWarning l ("Field " +++ quoted "description"
                   +++ " is missing (will default to empty string on import)")
  else if negb (typeof (get parsed "description") =? "string") then
    pushError l ("Field " +++ quoted "description" +++ " must be a string")
  else l.

(** Lines 131-137: [category].  The message interpolates the value, which
    raises a [TypeError] when the value has no string conversion. *)
Definition checkCategory (parsed : JSON) (l : Locals) : IO Locals :=
  if negb (has parsed "category") then
    ret (pushWarning l ("Field " +++ quoted "category" +++ " is missing (will default to "
                        +++ quoted "general" +++ " on import)"))
  else if negb (includes VALID_CATEGORIES (get parsed "category")) then
    match ToString_value (get parsed "category") with
    | Some category =>
        ret (pushError l ("Field " +++ quoted "category" +++ " is " +++ quoted category
                          +++ ", must be one of: " +++ Str.join ", " VALID_CATEGORIES))
    | None => throw "Cannot convert object to primitive value"
    end
  else ret l.

(** Lines 144-156: the loop over [parsed.examples], from index [i] on. *)
Fixpoint examplesLoop (i : nat) (examples : list JSON) (l : Locals) : Locals :=
  match examples with
  | [] => l
  | ex :: rest =>
      if isNull (Some ex) || negb (typeof (Some ex) =? "object") || Array_isArray (Some ex)
      then
        examplesLoop (S i) rest
          (pushError l ("examples[" +++ Str.of_nat i +++ "]: must be an object with "
                        +++ quoted "scenario" +++ " and " +++ quoted "commands"
                        +++ " strings"))
      else
        let l :=
          if negb (typeof (get ex "scenario") =? "string") then
            pushError l ("examples[" +++ Str.of_nat i +++ "]: " +++ quoted "scenario"
                         +++ " must be a string")
          else l in
        let l :=
          if negb (typeof (get ex "commands") =? "string") then
            pushError l ("examples[" +++ Str.of_nat i +++ "]: " +++ quoted "commands"
                         +++ " must be a string")
          else l in
        examplesLoop (S i) rest l
  end.

(** Lines 139-157: [examples]. *)
Definition checkExamples (parsed : JSON) (l : Locals) : Locals :=
  if negb (has parsed "examples") then
    pushWarning l ("Field " +++ quoted "examples"
                   +++ " is missing (will default to empty array on import)")
  else
    match get parsed "examples" with
    | Some (JArray examples) => examplesLoop 0 examples l
    | _ => pushError l ("Field " +++ quoted "examples" +++ " must be an array")
    end.

(** Lines 160-165: the keys outside [knownFields]. *)
Definition checkUnknown (parsed : JSON) (l : Locals) : Locals :=
  fold_left
    (fun l key =>
       if negb (Set_has knownFields key) then
         pushWarning l ("Unknown field " +++ quoted key +++ " (will be ignored on import)")
       else l)
    (Object_keys parsed) l.

(** Lines 104-165: the checks of the fields of a parsed object, in order. *)
Definition fieldChecks (filename : string) (parsed : JSON) (l : Locals) : IO Locals :=
  let l := checkId filename parsed l in
  let l := checkName parsed l in
  let l := checkSupplement parsed l in
  let l := checkDescription parsed l in
  l <- checkCategory parsed l ;;
  let l := checkExamples parsed l in
  let l := checkUnknown parsed l in
  ret l.

(** [printResults(errors, warnings)] followed by the [return] of
    [validateFile]. *)
Definition finish (l : Locals) (id : option string) : IO Report :=
  printResults (errors l) (warnings l) ;;
  ret {| errorCount := List.length (errors l);
         warningCount := List.length (warnings l);
         reportedId := id |}.

(** ** The runner's state *)

(** A JavaScript [Map] from identifier to the array of filenames, in
    insertion order of the keys. *)
Definition IdMap : Type := list (string * list string).

Fixpoint Map_get (m : IdMap) (key : string) : option (list string) :=
  match m with
  | [] => None
  | (k, v) :: rest => if k =? key then Some v else Map_get rest key
  end.

Definition Map_has (m : IdMap) (key : string) : bool :=
  match Map_get m key with Some _ => true | None => false end.

(** [m.set(key, v)]: a known key keeps its place, a new one goes last. *)
Fixpoint Map_set (m : IdMap) (key : string) (v : list string) : IdMap :=
  match m with
  | [] => [(key, v)]
  | (k, old) :: rest =>
      if k =? key then (k, v) :: rest else (k, old) :: Map_set rest key v
  end.

(** [m.get(key).push(file)]: the array lives in the map, so the push is seen
    by the map. *)
Definition Map_push (m : IdMap) (key file : string) : IdMap :=
  match Map_get m key with
  | Some filenames => Map_set m key (filenames ++ [file])
  | None => m
  end.

(** [m.size]. *)
Definition Map_size (m : IdMap) : nat := List.length m.

(** [!!id] of the [id] a report carries. *)
Definition truthy (id : option string) : bool :=
  match id with
  | Some s => negb (s =? EmptyString)
  | None => false
  end.

(** [Array.prototype.sort()] without comparator on strings: ascending by
    code units, stable. *)
Fixpoint insertSorted (x : string) (l : list string) : list string :=
  match l with
  | [] => [x]
  | y :: rest => if (x <=? y)%string then x :: y :: rest else y :: insertSorted x rest
  end.

Fixpoint sort (l : list string) : list string :=
  match l with
  | [] => []
  | x :: rest => insertSorted x (sort rest)
  end.

(** The accumulators of [main], lines 32-35. *)
Record Totals : Type := {
  totalErrors : nat;
  totalWarnings : nat;
  passedFiles : nat;
  idMap : IdMap
}.

(** Lines 39-47: what one report does to the accumulators. *)
Definition accumulate (st : Totals) (file : string) (r : Report) : Totals :=
  {| totalErrors := totalErrors st + errorCount r;
     totalWarnings := totalWarnings st + warningCount r;
     passedFiles := if (errorCount r =? 0)%nat then S (passedFiles st) else passedFiles st;
     idMap :=
       if truthy (reportedId r) then
         match reportedId r with
         | Some id =>
             let m := idMap st in
             let m := if negb (Map_has m id) then Map_set m id [] else m in
             Map_push m id file
         | None => idMap st
         end
       else idMap st |}.

(** Lines 53-58: the loop over the entries of the map, counting duplicates. *)
Fixpoint duplicatesLoop (entries : IdMap) (duplicates : nat) : IO nat :=
  match entries with
  | [] => ret duplicates
  | (id, filenames) :: rest =>
      if (1 <? List.length filenames)%nat then
        console_log ("  FAIL  Duplicate id " +++ quoted id +++ " in: "
                     +++ Str.join ", " filenames) ;;
        duplicatesLoop rest (S duplicates)
      else duplicatesLoop rest duplicates
  end.

Section Validator.

(** [JSON.parse]: the value of a text, or the message of its
    [SyntaxError]. *)
Variable JSON_parse : string -> result JSON.

(** Lines 88-90, the body of the [try]: read the file, parse its text. *)
Definition readAndParse (fs : FileSystem) (filename : string) : result JSON :=
  match readFile fs filename with
  | Ok content => JSON_parse content
  | Err message => Err message
  end.

(** [validateFile(filename)], lines 73-169. *)
Definition validateFile (fs : FileSystem) (filename : string) : IO Report :=
  let l := start in
  console_log (Str.LF +++ "Validating strategies/" +++ filename) ;;
  let l := checkFilename filename l in
  match readAndParse fs filename with
  | Err message =>
      let l := pushError l ("Invalid JSON: " +++ message) in
      finish l None
  | Ok parsed =>
      if isNull (Some parsed) || negb (typeof (Some parsed) =? "object")
         || Array_isArray (Some parsed)
      then
        let l := pushError l "Top-level value must be a JSON object" in
        finish l None
      else
        l <- fieldChecks filename parsed l ;;
        finish l (id l)
  end.

(** Lines 37-48: the loop over the files. *)
Fixpoint filesLoop (fs : FileSystem) (files : list string) (st : Totals) : IO Totals :=
  match files with
  | [] => ret st
  | file :: rest =>
      r <- validateFile fs file ;;
      filesLoop fs rest (accumulate st file r)
  end.

(** [main()], lines 23-71.  A failing [readdir] rejects the promise of
    [main], which nobody catches. *)
Definition main (fs : FileSystem) : IO unit :=
  match readdir fs with
  | Err message => throw message
  | Ok entries =>
      let files := sort (filter (fun f => Str.endsWith f ".json") entries) in
      (if (List.length files =? 0)%nat then
         console_error "No .json files found in strategies/" ;;
         process_exit 1
       else ret tt) ;;
      st <- filesLoop fs files
              {| totalErrors := 0; totalWarnings := 0; passedFiles := 0; idMap := [] |} ;;
      console_log (Str.LF +++ "Cross-file checks:") ;;
      duplicates <- duplicatesLoop (idMap st) 0 ;;
      let totalErrors := totalErrors st + duplicates in
      (if (duplicates =? 0)%nat then
         console_log ("  ok    All " +++ Str.of_nat (Map_size (idMap st))
                      +++ " strategy IDs are unique")
       else ret tt) ;;
      let failedFiles := List.length files - passedFiles st in
      console_log (Str.LF +++ "Results: " +++ Str.of_nat (passedFiles st) +++ " passed, "
                   +++ Str.of_nat failedFiles +++ " failed, "
                   +++ Str.of_nat (totalWarnings st) +++ " warnings") ;;
      process_exit (if (0 <? totalErrors)%nat then 1 else 0)
  end.

End Validator.

(** ** Reading the specification

    The words of the specification, as predicates on parsed values that do
    not go through [typeof]. *)

Definition isString (v : Value) : bool :=
  match v with Some (JString _) => true | _ => false end.

Definition isNonEmptyString (v : Value) : bool :=
  match v with Some (JString s) => negb (s =? EmptyString) | _ => false end.

(** A keyed record: an object that is neither [null] nor a sequence. *)
Definition isRecord (j : JSON) : bool :=
  match j with JObject _ => true | _ => false end.

Definition absent (v : Value) : bool :=
  match v with None => true | Some _ => false end.

(** The errors the specification asks for the element at position [i] of
    [examples]: one when it is not a record, otherwise one for each of
    [scenario] and [commands] that is not a string. *)
Definition exampleErrors (i : nat) (ex : JSON) : list string :=
  if isRecord ex then
    (if isString (get ex "scenario") then []
     else ["examples[" +++ Str.of_nat i +++ "]: " +++ quoted "scenario"
           +++ " must be a string"])
    ++
    (if isString (get ex "commands") then []
     else ["examples[" +++ Str.of_nat i +++ "]: " +++ quoted "commands"
           +++ " must be a string"])
  else ["examples[" +++ Str.of_nat i +++ "]: must be an object with "
        +++ quoted "scenario" +++ " and " +++ quoted "commands" +++ " strings"].

(** The elements of [l] with their positions, counted from [i]. *)
Fixpoint indexedFrom {X : Type} (i : nat) (l : list X) : list (nat * X) :=
  match l with
  | [] => []
  | x :: rest => (i, x) :: indexedFrom (S i) rest
  end.

(** An element in order: a record with both strings. *)
Definition validExample (ex : JSON) : bool :=
  isRecord ex && isString (get ex "scenario") && isString (get ex "commands").

(** [b] follows [a]: the diagnostics of [a], then those of [b]; the
    identifier of [b] when it set one. *)
Definition merge (a b : Locals) : Locals :=
  {| errors := errors a ++ errors b;
     warnings := warnings a ++ warnings b;
     id := match id b with Some s => Some s | None => id a end |}.

(** The line of the cross-file section for a duplicated identifier. *)
Definition duplicateLine (entry : string * list string) : call :=
  Stdout ("  FAIL  Duplicate id " +++ quoted (fst entry) +++ " in: "
          +++ Str.join ", " (snd entry)).

Definition duplicated (entry : string * list string) : bool :=
  (1 <? List.length (snd entry))%nat.

(** The header of the section of a file. *)
Definition header (filename : string) : call :=
  Stdout (Str.LF +++ "Validating strategies/" +++ filename).

(** The line of an error and the line of a warning. *)
Definition failLine (msg : string) : call := Stdout ("  FAIL  " +++ msg).
Definition warnLine (msg : string) : call := Stdout ("  WARN  " +++ msg).

(** What the specification has the reporter write for a file: a single
    [ok], or the errors and then the warnings. *)
Definition printed (errors warnings : list string) : list call :=
  match errors, warnings with
  | [], [] => [Stdout "  ok"]
  | _, _ => map failLine errors ++ map warnLine warnings
  end.

(** The error of the naming convention, if the filename breaks it. *)
Definition filenameErrors (filename : string) : list string :=
  if FILENAME_RE_test filename then []
  else ["Filename " +++ quoted filename
        +++ " must be lowercase, hyphenated (e.g., my-strategy.json)"].

(** The file [f] is validated to the end, with report [r]. *)
Definition validated (JSON_parse : string -> result JSON) (fs : FileSystem)
    (f : string) (r : Report) : Prop :=
  completes (validateFile JSON_parse fs f) = Normal r.

(** The file [f] holds a text that parses to [parsed]. *)
Definition holds (JSON_parse : string -> result JSON) (fs : FileSystem)
    (f : string) (parsed : JSON) : Prop :=
  exists content, readFile fs f = Ok content /\ JSON_parse content = Ok parsed.

(** The stem of a filename, line 110. *)
Definition stemOf (filename : string) : string := basename filename (extname filename).

(** The interpolation of [category] in its message succeeds: the field is
    absent or valid (no message), or its value has a string conversion. *)
Definition categoryConverts (parsed : JSON) : bool :=
  negb (has parsed "category")
  || includes VALID_CATEGORIES (get parsed "category")
  || match ToString_value (get parsed "category") with
     | Some _ => true
     | None => false
     end.

(** What the check of [category] adds to fresh locals, when it returns. *)
Definition categoryLocals (parsed : JSON) : Locals :=
  match completes (checkCategory parsed start) with
  | Normal l => l
  | _ => start
  end.

(** What the checks of the fields add to the locals: each check run on
    fresh locals, in the order of the script. *)
Definition fieldLocals (filename : string) (parsed : JSON) : Locals :=
  merge (checkId filename parsed start)
    (merge (checkName parsed start)
       (merge (checkSupplement parsed start)
          (merge (checkDescription parsed start)
             (merge (categoryLocals parsed)
                (merge (checkExamples parsed start) (checkUnknown parsed start)))))).

(** The files of a run: the entries with the extension, sorted (line 25). *)
Definition discovered (entries : list string) : list string :=
  sort (filter (fun f => Str.endsWith f ".json") entries).

(** The accumulators after the reports of the files, in order. *)
Definition tally (st : Totals) (reports : list (string * Report)) : Totals :=
  fold_left (fun st fr => accumulate st (fst fr) (snd fr)) reports st.

Definition zero : Totals :=
  {| totalErrors := 0; totalWarnings := 0; passedFiles := 0; idMap := [] |}.

(** The report of a file declares the identifier [key]. *)
Definition declares (key : string) (fr : string * Report) : bool :=
  match reportedId (snd fr) with
  | Some s => negb (s =? EmptyString) && (s =? key)
  | None => false
  end.

(** The files whose report declares [key], in the order of the run. *)
Definition filesOf (key : string) (reports : list (string * Report)) : list string :=
  map fst (filter (declares key) reports).

(** The lines of the cross-file section for a map: its title, one line for
    each duplicated identifier, and the success line when there is none. *)
Definition crossFileSection (m : IdMap) : list call :=
  Stdout (Str.LF +++ "Cross-file checks:")
  :: map duplicateLine (filter duplicated m)
  ++ (if (List.length (filter duplicated m) =? 0)%nat
      then [Stdout ("  ok    All " +++ Str.of_nat (Map_size m)
                    +++ " strategy IDs are unique")]
      else []).

(** The summary line, line 67-69. *)
Definition summaryLine (files : nat) (st : Totals) : call :=
  Stdout (Str.LF +++ "Results: " +++ Str.of_nat (passedFiles st) +++ " passed, "
          +++ Str.of_nat (files - passedFiles st) +++ " failed, "
          +++ Str.of_nat (totalWarnings st) +++ " warnings").

(** Two reports that agree on the errors and on the identifier; they may
    differ in their warnings. *)
Definition sameButWarnings (r r' : Report) : Prop :=
  errorCount r = errorCount r' /\ reportedId r = reportedId r'.


(** The errors the specification asks for a sequence of examples, each
    element at its position. *)
Definition examplesErrors (i : nat) (examples : list JSON) : list string :=
  flat_map (fun p => exampleErrors (fst p) (snd p)) (indexedFrom i examples).

(** Every field but [id] passes its check without an error: a missing
    optional field is a warning only. *)
Definition otherFieldsPass (parsed : JSON) : bool :=
  isNonEmptyString (get parsed "name")
  && isString (get parsed "supplement")
  && (absent (get parsed "description") || isString (get parsed "description"))
  && (absent (get parsed "category") || includes VALID_CATEGORIES (get parsed "category"))
  && (absent (get parsed "examples")
      || match get parsed "examples" with
         | Some (JArray examples) => forallb validExample examples
         | _ => false
         end).

(** A valid, fully populated document for a filename: the filename follows
    the convention, the value is a record, every recognized field is there
    with its type, the identifier is the stem of the filename, and no key
    is unknown. *)
Definition conformant (filename : string) (parsed : JSON) : bool :=
  FILENAME_RE_test filename
  && isRecord parsed
  && match get parsed "id" with
     | Some (JString s) => negb (s =? EmptyString) && (s =? stemOf filename)
     | _ => false
     end
  && isNonEmptyString (get parsed "name")
  && isString (get parsed "supplement")
  && isString (get parsed "description")
  && includes VALID_CATEGORIES (get parsed "category")
  && match get parsed "examples" with
     | Some (JArray examples) => forallb validExample examples
     | _ => false
     end
  && forallb (Set_has knownFields) (Object_keys parsed).

(** The identifier a document declares, if it is a string. *)
Definition idOf (parsed : JSON) : option string :=
  match get parsed "id" with
  | Some (JString s) => Some s
  | _ => None
  end.

(** The report of a document without any diagnostic. *)
Definition clean (identifier : option string) : Report :=
  {| errorCount := 0; warningCount := 0; reportedId := identifier |}.

(** ** Reading the script's conventions

    The regular expression of line 19 and the order of line 25, said
    without the automaton and the insertion. *)

(** Every character of [s] satisfies [p]. *)
Fixpoint allChars (p : ascii -> bool) (s : string) : bool :=
  match s with
  | EmptyString => true
  | String c rest => p c && allChars p rest
  end.

(** A match of [[a-z0-9]+]. *)
Definition isSegment (s : string) : bool :=
  negb (s =? EmptyString) && allChars lowerAlnum s.

(** The text of a match of [(-[a-z0-9]+)*] with these segments. *)
Fixpoint hyphenated (segments : list string) : string :=
  match segments with
  | [] => EmptyString
  | segment :: rest => "-" +++ segment +++ hyphenated rest
  end.

(** The language of [FILENAME_RE]: a segment, hyphenated segments, and
    [.json]. *)
Definition conventional (filename : string) : Prop :=
  exists first rest,
    isSegment first = true
    /\ Forall (fun segment => isSegment segment = true) rest
    /\ filename = first +++ hyphenated rest +++ ".json".

(** [a] comes before [b], or is [b], in the order of [sort]. *)
Definition precedes (a b : string) : Prop := (a <=? b)%string = true.

(** A report without error: the file passes (line 42). *)
Definition passes (r : Report) : bool := (errorCount r =? 0)%nat.

(** The number of errors the fields of a record and its filename call for,
    each check counted on its own. *)
Definition errorsCalledFor (filename : string) (parsed : JSON) : nat :=
  (if FILENAME_RE_test filename then 0 else 1)
  + (if isNonEmptyString (get parsed "id") then 0 else 1)
  + (if isNonEmptyString (get parsed "name") then 0 else 1)
  + (if isString (get parsed "supplement") then 0 else 1)
  + (if absent (get parsed "description") || isString (get parsed "description")
     then 0 else 1)
  + (if absent (get parsed "category")
        || includes VALID_CATEGORIES (get parsed "category")
     then 0 else 1)
  + match get parsed "examples" with
    | None => 0
    | Some (JArray examples) => List.length (examplesErrors 0 examples)
    | Some _ => 1
    end.

(** The number of warnings they call for: an identifier that is not the
    stem, each absent optional field, each unknown key. *)
Definition warningsCalledFor (filename : string) (parsed : JSON) : nat :=
  match get parsed "id" with
  | Some (JString s) =>
      if negb (s =? EmptyString) && negb (s =? stemOf filename) then 1 else 0
  | _ => 0
  end
  + (if absent (get parsed "description") then 1 else 0)
  + (if absent (get parsed "category") then 1 else 0)
  + (if absent (get parsed "examples") then 1 else 0)
  + List.length (filter (fun key => negb (Set_has knownFields key)) (Object_keys parsed)).

(** A line that opens the section of a file (line 79). *)
Definition isHeader (c : call) : bool :=
  match c with
  | Stdout s => String.prefix (Str.LF +++ "Validating strategies/") s
  | Stderr _ => false
  end.

(** The message of line 134-136 for a [category] written [text]. *)
Definition categoryMessage (text : string) : string :=
  "Field " +++ quoted "category" +++ " is " +++ quoted text
  +++ ", must be one of: general, pattern, workflow, organism".

(** A record with one more member, at a given position among its keys:
    [Object.keys] lists an integer index before the other keys, and the
    other keys in the order of the text. *)
Definition withMember (position : nat) (parsed : JSON) (key : string) (v : JSON) : JSON :=
  match parsed with
  | JObject members =>
      JObject (firstn position members ++ (key, v) :: skipn position members)
  | other => other
  end.


(** ** Sample documents

    A few strategy documents, their texts, and directories that hold them.
    [parse] is [JSON.parse] on the texts of these documents and raises a
    [SyntaxError] on every other text; it instantiates the section's
    variable where a statement is evaluated on a sample. *)

Module Sample.

Definition example (scenario commands : string) : JSON :=
  JObject [("scenario", JString scenario); ("commands", JString commands)].

Definition strategy (id category : string) (examples : list JSON) : JSON :=
  JObject [("id", JString id); ("name", JString "General Analysis");
           ("description", JString "Balanced analysis");
           ("category", JString category); ("supplement", JString EmptyString);
           ("examples", JArray examples)].

Definition general : JSON :=
  strategy "general" "general" [example "A clean map" "zoom reset"].

Definition inversionFocus : JSON :=
  strategy "inversion-focus" "pattern" [example "An anti-diagonal" "invert contig_1"].

(** No [id]; every other field is in order. *)
Definition anonymous : JSON :=
  JObject [("name", JString "No identifier"); ("description", JString "d");
           ("category", JString "workflow"); ("supplement", JString "s");
           ("examples", JArray [])].

(** The second of three examples has no [commands]. *)
Definition halfExample : JSON :=
  strategy "half-example" "pattern"
    [example "a" "b"; JObject [("scenario", JString "c")]; example "d" "e"].

(** A category that is an object with a member named [toString]. *)
Definition oddCategory : JSON :=
  JObject [("id", JString "odd"); ("name", JString "Odd");
           ("supplement", JString "s");
           ("category", JObject [("toString", JNumber "1")])].

(** Only [id], [name] and [supplement]: three optional fields are absent. *)
Definition minimal : JSON :=
  JObject [("id", JString "minimal"); ("name", JString "Minimal");
           ("supplement", JString "s")].

(** The compact JSON text of a value whose strings need no escape. *)
Fixpoint stringify (v : JSON) : string :=
  match v with
  | JNull => "null"
  | JBool true => "true"
  | JBool false => "false"
  | JNumber rendering => rendering
  | JString s => quoted s
  | JArray elements =>
      "[" +++ (fix items (l : list JSON) : string :=
                 match l with
                 | [] => EmptyString
                 | [x] => stringify x
                 | x :: rest => stringify x +++ "," +++ items rest
                 end) elements +++ "]"
  | JObject members =>
      "{" +++ (fix items (l : list (string * JSON)) : string :=
                 match l with
                 | [] => EmptyString
                 | [(k, x)] => quoted k +++ ":" +++ stringify x
                 | (k, x) :: rest => quoted k +++ ":" +++ stringify x +++ "," +++ items rest
                 end) members +++ "}"
  end.

Definition known : list JSON :=
  [general; inversionFocus; anonymous; halfExample; oddCategory; minimal;
   JArray []; JNull; JNumber "42"].

Fixpoint lookup (values : list JSON) (text : string) : result JSON :=
  match values with
  | [] => Err "Unexpected token in JSON at position 0"
  | v :: rest => if stringify v =? text then Ok v else lookup rest text
  end.

Definition parse (text : string) : result JSON := lookup known text.

Fixpoint content (files : list (string * result string)) (name : string)
  : result string :=
  match files with
  | [] => Err "ENOENT: no such file or directory"
  | (f, c) :: rest => if f =? name then c else content rest name
  end.

(** A directory given by its entries and their texts. *)
Definition directory (files : list (string * result string)) : FileSystem :=
  {| readdir := Ok (map fst files); readFile := content files |}.

(** Two valid strategies and a file that is not a strategy. *)
Definition seeded : FileSystem :=
  directory [("inversion-focus.json", Ok (stringify inversionFocus));
             ("README.md", Ok "# Strategies");
             ("general.json", Ok (stringify general))].

(** [copy.json] declares the identifier of [general.json]. *)
Definition collided : FileSystem :=
  directory [("general.json", Ok (stringify general));
             ("copy.json", Ok (stringify general))].

(** A malformed text, an array, a file that cannot be read, a document
    without [id], and a valid one. *)
Definition mixed : FileSystem :=
  directory [("general.json", Ok (stringify general));
             ("broken.json", Ok "{ not json");
             ("list.json", Ok "[]");
             ("gone.json", Err "EACCES: permission denied");
             ("anonymous.json", Ok (stringify anonymous))].

(** Nothing with the [.json] extension. *)
Definition bare : FileSystem :=
  directory [("README.md", Ok "# Strategies"); ("notes.txt", Ok "todo")].

(** The reports of the files of [mixed], in the order of the run:
    [anonymous.json], [broken.json], [general.json], [gone.json] and
    [list.json]. *)
Definition failed : Report :=
  {| errorCount := 1; warningCount := 0; reportedId := None |}.

Definition mixedReports : list Report :=
  [failed; failed; clean (Some "general"); failed; failed].

(** The reports of [collided]: [copy.json] has a warning for its stem. *)
Definition collidedReports : list Report :=
  [{| errorCount := 0; warningCount := 1; reportedId := Some "general" |};
   clean (Some "general")].

(** One file holding the text of a document. *)
Definition single (name : string) (v : JSON) : FileSystem :=
  directory [(name, Ok (stringify v))].

(** The document of [general.json] with a member the script does not
    know, under an integer index: it comes first among the keys. *)
Definition tagged : JSON := withMember 0 general "1" (JString "someone").

(** An [examples] that is a string. *)
Definition looseExamples : JSON :=
  JObject [("id", JString "loose"); ("name", JString "Loose");
           ("description", JString "d"); ("category", JString "general");
           ("supplement", JString "s"); ("examples", JString "oops")].

(** A [category] that is [null]. *)
Definition nullCategory : JSON :=
  JObject [("id", JString "null-category"); ("name", JString "Null category");
           ("supplement", JString "s"); ("category", JNull)].

(** [JSON.parse] on the texts of the documents above and of these. *)
Definition parseMore (text : string) : result JSON :=
  lookup (known ++ [tagged; nullCategory; looseExamples]) text.

(** A valid strategy, then the document whose [category] cannot be
    written, then another valid one. *)
Definition interrupted : FileSystem :=
  directory [("zebra.json", Ok (stringify general));
             ("odd.json", Ok (stringify oddCategory));
             ("general.json", Ok (stringify general))].

End Sample.

(** * Properties *)

(** ** Computations *)

Lemma bind_ret {A B : Type} (a : A) (k : A -> IO B) : bind (ret a) k = k a.
Proof. unfold bind, ret. destruct (k a) as [out c]. reflexivity. Qed.

Lemma bind_normal {A B : Type} (m : IO A) (k : A -> IO B) (out : list call) (a : A) :
  m = (out, Normal a) ->
  bind m k = (out ++ output (k a), completes (k a)).
Proof. intros ->. unfold bind, output, completes. destruct (k a). reflexivity. Qed.

Lemma bind_log {B : Type} (s : string) (k : unit -> IO B) :
  bind (console_log s) k = (Stdout s :: output (k tt), completes (k tt)).
Proof. unfold bind, console_log, output, completes. destruct (k tt). reflexivity. Qed.

Lemma io_eta {A : Type} (m : IO A) : m = (output m, completes m).
Proof. destruct m. reflexivity. Qed.

Lemma for_of_log (f : string -> string) (l : list string) :
  for_of l (fun msg => console_log (f msg)) = (map (fun msg => Stdout (f msg)) l, Normal tt).
Proof.
  induction l as [|x rest IH]; [reflexivity|].
  cbn [for_of]. rewrite bind_log, IH. reflexivity.
Qed.

Lemma printResults_printed (errors warnings : list string) :
  printResults errors warnings = (printed errors warnings, Normal tt).
Proof.
  unfold printResults, printed.
  destruct errors as [|e es]; destruct warnings as [|w ws];
    cbn [List.length Nat.eqb andb]; try reflexivity;
    rewrite !for_of_log; reflexivity.
Qed.

Lemma finish_eq (l : Locals) (i : option string) :
  finish l i =
  (printed (errors l) (warnings l),
   Normal {| errorCount := List.length (errors l);
             warningCount := List.length (warnings l);
             reportedId := i |}).
Proof.
  unfold finish. rewrite printResults_printed. simpl. rewrite app_nil_r. reflexivity.
Qed.

(** ** The locals: every check appends *)

Lemma merge_start_r (l : Locals) : merge l start = l.
Proof. destruct l. unfold merge. simpl. rewrite !app_nil_r. reflexivity. Qed.

Lemma merge_start_l (l : Locals) : merge start l = l.
Proof. destruct l as [e w [i|]]; reflexivity. Qed.

Lemma merge_assoc (a b c : Locals) : merge (merge a b) c = merge a (merge b c).
Proof.
  unfold merge. simpl. rewrite !app_assoc.
  destruct (id c); reflexivity.
Qed.

Lemma pushError_merge (l : Locals) (msg : string) :
  pushError l msg = merge l (pushError start msg).
Proof. unfold pushError, merge. simpl. rewrite app_nil_r. reflexivity. Qed.

Lemma pushWarning_merge (l : Locals) (msg : string) :
  pushWarning l msg = merge l (pushWarning start msg).
Proof. unfold pushWarning, merge. simpl. rewrite app_nil_r. reflexivity. Qed.

Lemma setId_merge (l : Locals) (s : string) : setId l s = merge l (setId start s).
Proof. unfold setId, merge. simpl. rewrite !app_nil_r. reflexivity. Qed.

(** Splits a check on [l] into [l] and the check on [start]. *)
Ltac frame :=
  repeat match goal with
         | |- context [if ?c then _ else _] => destruct c
         | |- context [match ?v with _ => _ end] => destruct v
         end;
  rewrite ?merge_start_r;
  first [ reflexivity | apply pushError_merge | apply pushWarning_merge ].

Lemma checkFilename_merge (filename : string) (l : Locals) :
  checkFilename filename l = merge l (checkFilename filename start).
Proof. unfold checkFilename. frame. Qed.

Lemma checkId_merge (filename : string) (parsed : JSON) (l : Locals) :
  checkId filename parsed l = merge l (checkId filename parsed start).
Proof.
  unfold checkId.
  destruct (negb (typeof (get parsed "id") =? "string") || falsy (get parsed "id"));
    [apply pushError_merge|].
  destruct (get parsed "id") as [[| | |s| |]|]; rewrite ?merge_start_r; try reflexivity.
  destruct (negb (s =? basename filename (extname filename))).
  - rewrite pushWarning_merge, setId_merge, merge_assoc. reflexivity.
  - apply setId_merge.
Qed.

Lemma checkName_merge (parsed : JSON) (l : Locals) :
  checkName parsed l = merge l (checkName parsed start).
Proof. unfold checkName. frame. Qed.

Lemma checkSupplement_merge (parsed : JSON) (l : Locals) :
  checkSupplement parsed l = merge l (checkSupplement parsed start).
Proof. unfold checkSupplement. frame. Qed.

Lemma checkDescription_merge (parsed : JSON) (l : Locals) :
  checkDescription parsed l = merge l (checkDescription parsed start).
Proof. unfold checkDescription. frame. Qed.

Lemma pushError_merge_l (a b : Locals) (msg : string) :
  pushError (merge a b) msg = merge a (pushError b msg).
Proof. unfold pushError, merge. simpl. rewrite app_assoc. reflexivity. Qed.

Lemma pushWarning_merge_l (a b : Locals) (msg : string) :
  pushWarning (merge a b) msg = merge a (pushWarning b msg).
Proof. unfold pushWarning, merge. simpl. rewrite app_assoc. reflexivity. Qed.

Lemma examplesLoop_merge (examples : list JSON) :
  forall (i : nat) (l : Locals),
    examplesLoop i examples l = merge l (examplesLoop i examples start).
Proof.
  induction examples as [|ex rest IH]; intros i l; cbn [examplesLoop].
  - symmetry. apply merge_start_r.
  - assert (step : forall a b : Locals,
               a = merge l b ->
               examplesLoop (S i) rest a = merge l (examplesLoop (S i) rest b)).
    { intros a b ->. rewrite (IH _ (merge l b)), merge_assoc, <- (IH _ b). reflexivity. }
    destruct (isNull (Some ex) || negb (typeof (Some ex) =? "object")
              || Array_isArray (Some ex)).
    + apply step, pushError_merge.
    + apply step.
      destruct (negb (typeof (get ex "scenario") =? "string"));
        destruct (negb (typeof (get ex "commands") =? "string"));
        rewrite ?merge_start_r; try reflexivity; try apply pushError_merge.
      rewrite (pushError_merge l), pushError_merge_l. reflexivity.
Qed.

Lemma checkExamples_merge (parsed : JSON) (l : Locals) :
  checkExamples parsed l = merge l (checkExamples parsed start).
Proof.
  unfold checkExamples.
  destruct (negb (has parsed "examples")); [apply pushWarning_merge|].
  destruct (get parsed "examples") as [[| | | |examples|]|];
    try apply pushError_merge.
  apply examplesLoop_merge.
Qed.

Lemma checkUnknown_merge (parsed : JSON) (l : Locals) :
  checkUnknown parsed l = merge l (checkUnknown parsed start).
Proof.
  unfold checkUnknown. generalize (Object_keys parsed) as keys.
  intros keys. revert l.
  induction keys as [|key rest IH] using rev_ind; intros l.
  - symmetry. apply merge_start_r.
  - rewrite !fold_left_app. cbn [fold_left]. rewrite IH.
    destruct (negb (Set_has knownFields key)); [|reflexivity].
    apply pushWarning_merge_l.
Qed.

Lemma checkCategory_converts (parsed : JSON) (l : Locals) :
  categoryConverts parsed = true ->
  checkCategory parsed l = ret (merge l (categoryLocals parsed)).
Proof.
  unfold categoryConverts, categoryLocals, checkCategory. intros H.
  destruct (negb (has parsed "category")).
  - cbn [ret completes snd]. rewrite <- pushWarning_merge. reflexivity.
  - destruct (includes VALID_CATEGORIES (get parsed "category")).
    + cbn [negb ret completes snd]. rewrite merge_start_r. reflexivity.
    + cbn [negb orb] in H |- *.
      destruct (ToString_value (get parsed "category")); [|discriminate].
      cbn [ret completes snd]. rewrite <- pushError_merge. reflexivity.
Qed.

Lemma checkCategory_throws (parsed : JSON) (l : Locals) :
  categoryConverts parsed = false ->
  checkCategory parsed l = throw "Cannot convert object to primitive value".
Proof.
  unfold categoryConverts, checkCategory. intros H.
  destruct (negb (has parsed "category")); [discriminate|].
  destruct (includes VALID_CATEGORIES (get parsed "category")); [discriminate|].
  cbn [negb orb] in H |- *.
  destruct (ToString_value (get parsed "category")); [discriminate|reflexivity].
Qed.

Lemma fieldChecks_converts (filename : string) (parsed : JSON) (l : Locals) :
  categoryConverts parsed = true ->
  fieldChecks filename parsed l = ret (merge l (fieldLocals filename parsed)).
Proof.
  intros H. unfold fieldChecks, fieldLocals.
  rewrite (checkCategory_converts _ _ H), bind_ret.
  rewrite checkUnknown_merge, checkExamples_merge, checkDescription_merge,
    checkSupplement_merge, checkName_merge, checkId_merge.
  rewrite !merge_assoc. reflexivity.
Qed.

Lemma fieldChecks_throws (filename : string) (parsed : JSON) (l : Locals) :
  categoryConverts parsed = false ->
  fieldChecks filename parsed l = throw "Cannot convert object to primitive value".
Proof.
  intros H. unfold fieldChecks. rewrite (checkCategory_throws _ _ H). reflexivity.
Qed.

(** The top-level test of line 98 holds of everything but records. *)
Lemma topLevel_isRecord (parsed : JSON) :
  isNull (Some parsed) || negb (typeof (Some parsed) =? "object")
  || Array_isArray (Some parsed) = negb (isRecord parsed).
Proof. destruct parsed; reflexivity. Qed.

Lemma checkFilename_cases (filename : string) :
  (FILENAME_RE_test filename = true /\ checkFilename filename start = start)
  \/ (FILENAME_RE_test filename = false /\
      checkFilename filename start =
      pushError start ("Filename " +++ quoted filename
                       +++ " must be lowercase, hyphenated (e.g., my-strategy.json)")).
Proof.
  unfold checkFilename. destruct (FILENAME_RE_test filename); [left|right]; split; reflexivity.
Qed.

Lemma checkFilename_warnings (filename : string) :
  warnings (checkFilename filename start) = [] /\ id (checkFilename filename start) = None.
Proof.
  destruct (checkFilename_cases filename) as [[_ ->]|[_ ->]]; split; reflexivity.
Qed.

(** ** validateFile, case by case *)

Section ValidateFile.

Variable JSON_parse : string -> result JSON.
Variable fs : FileSystem.
Variable filename : string.

(** The [catch] of line 91: the read or the parse failed. *)
Lemma validateFile_caught (message : string) :
  readAndParse JSON_parse fs filename = Err message ->
  validateFile JSON_parse fs filename =
  (header filename
     :: printed (errors (checkFilename filename start) ++ ["Invalid JSON: " +++ message]) [],
   Normal {| errorCount := S (List.length (errors (checkFilename filename start)));
             warningCount := 0;
             reportedId := None |}).
Proof.
  intros H. unfold validateFile. rewrite bind_log, H, finish_eq.
  destruct (checkFilename_warnings filename) as [Hw _].
  cbn [output completes fst snd pushError errors warnings]. rewrite Hw.
  rewrite length_app, Nat.add_comm. reflexivity.
Qed.

(** The [return] of line 101: the value is not a record. *)
Lemma validateFile_shape (parsed : JSON) :
  readAndParse JSON_parse fs filename = Ok parsed ->
  isRecord parsed = false ->
  validateFile JSON_parse fs filename =
  (header filename
     :: printed (errors (checkFilename filename start)
                 ++ ["Top-level value must be a JSON object"]) [],
   Normal {| errorCount := S (List.length (errors (checkFilename filename start)));
             warningCount := 0;
             reportedId := None |}).
Proof.
  intros H Hrec. unfold validateFile.
  rewrite bind_log, H, topLevel_isRecord, Hrec, finish_eq.
  destruct (checkFilename_warnings filename) as [Hw _].
  cbn [negb output completes fst snd pushError errors warnings]. rewrite Hw.
  rewrite length_app, Nat.add_comm. reflexivity.
Qed.

(** The [return] of line 168: a record whose checks all ran. *)
Lemma validateFile_record (parsed : JSON) :
  readAndParse JSON_parse fs filename = Ok parsed ->
  isRecord parsed = true ->
  categoryConverts parsed = true ->
  let l := merge (checkFilename filename start) (fieldLocals filename parsed) in
  validateFile JSON_parse fs filename =
  (header filename :: printed (errors l) (warnings l),
   Normal {| errorCount := List.length (errors l);
             warningCount := List.length (warnings l);
             reportedId := id l |}).
Proof.
  intros H Hrec Hcat l. unfold validateFile.
  rewrite bind_log, H, topLevel_isRecord, Hrec.
  cbn [negb]. rewrite (fieldChecks_converts _ _ _ Hcat), bind_ret, finish_eq.
  reflexivity.
Qed.

(** A record whose [category] cannot be written in its message: the
    exception leaves [validateFile] after the header. *)
Lemma validateFile_throws (parsed : JSON) :
  readAndParse JSON_parse fs filename = Ok parsed ->
  isRecord parsed = true ->
  categoryConverts parsed = false ->
  validateFile JSON_parse fs filename =
  ([header filename], Throw "Cannot convert object to primitive value").
Proof.
  intros H Hrec Hcat. unfold validateFile.
  rewrite bind_log, H, topLevel_isRecord, Hrec.
  cbn [negb]. rewrite (fieldChecks_throws _ _ _ Hcat). reflexivity.
Qed.

End ValidateFile.

(** ** The map of identifiers *)

Lemma Map_get_set (m : IdMap) (k k' : string) (v : list string) :
  Map_get (Map_set m k v) k' = if k =? k' then Some v else Map_get m k'.
Proof.
  induction m as [|[k0 old] rest IH]; cbn [Map_set Map_get].
  - reflexivity.
  - destruct (k0 =? k) eqn:E0; cbn [Map_get].
    + apply String.eqb_eq in E0. subst k0.
      destruct (k =? k'); reflexivity.
    + rewrite IH. destruct (k0 =? k') eqn:E1; [|reflexivity].
      apply String.eqb_eq in E1. subst k'.
      rewrite String.eqb_sym, E0. reflexivity.
Qed.

Lemma Map_keys_set (m : IdMap) (k : string) (v : list string) :
  map fst (Map_set m k v) = if Map_has m k then map fst m else map fst m ++ [k].
Proof.
  unfold Map_has.
  induction m as [|[k0 old] rest IH]; cbn [Map_set Map_get map fst app].
  - reflexivity.
  - destruct (k0 =? k); [reflexivity|].
    cbn [map fst]. rewrite IH.
    destruct (Map_get rest k); reflexivity.
Qed.

Lemma Map_has_In (m : IdMap) (k : string) :
  Map_has m k = true <-> In k (map fst m).
Proof.
  unfold Map_has.
  induction m as [|[k0 v] rest IH]; cbn [Map_get map fst In].
  - split; [discriminate|contradiction].
  - destruct (k0 =? k) eqn:E.
    + apply String.eqb_eq in E. split; auto.
    + rewrite IH. split; [auto|].
      intros [->|H]; [|exact H]. rewrite String.eqb_refl in E. discriminate.
Qed.

Lemma Map_set_NoDup (m : IdMap) (k : string) (v : list string) :
  NoDup (map fst m) -> NoDup (map fst (Map_set m k v)).
Proof.
  intros H. rewrite Map_keys_set.
  destruct (Map_has m k) eqn:E; [exact H|].
  apply NoDup_app; [exact H|repeat constructor; intros []|].
  intros x Hx [<-|[]].
  apply Map_has_In in Hx. congruence.
Qed.

Lemma Map_get_In (m : IdMap) (k : string) (v : list string) :
  NoDup (map fst m) -> (In (k, v) m <-> Map_get m k = Some v).
Proof.
  induction m as [|[k0 v0] rest IH]; cbn [Map_get map fst In]; intros H.
  - split; [contradiction|discriminate].
  - inversion H as [|? ? Hnot Hrest]; subst.
    destruct (k0 =? k) eqn:E.
    + apply String.eqb_eq in E. subst k0. split.
      * intros [Heq|Hin]; [congruence|].
        exfalso. apply Hnot. apply (in_map fst) in Hin. exact Hin.
      * intros Heq. left. congruence.
    + rewrite <- (IH Hrest). split; [|auto].
      intros [Heq|Hin]; [|exact Hin].
      inversion Heq; subst. rewrite String.eqb_refl in E. discriminate.
Qed.

(** One report on the map: the file joins the files of the identifier it
    declares. *)
Lemma accumulate_get (st : Totals) (file : string) (r : Report) (k : string) :
  Map_get (idMap (accumulate st file r)) k =
  if declares k (file, r)
  then Some (match Map_get (idMap st) k with Some l => l | None => [] end ++ [file])
  else Map_get (idMap st) k.
Proof.
  unfold accumulate, declares, truthy. cbn [idMap fst snd].
  destruct (reportedId r) as [s|]; [|reflexivity].
  destruct (s =? EmptyString); cbn [negb andb]; [reflexivity|].
  unfold Map_push, Map_has.
  destruct (Map_get (idMap st) s) as [l|] eqn:E; cbn [negb].
  - rewrite E, Map_get_set.
    destruct (s =? k) eqn:Ek; [|reflexivity].
    apply String.eqb_eq in Ek. subst k. rewrite E. reflexivity.
  - rewrite Map_get_set, String.eqb_refl, !Map_get_set.
    destruct (s =? k) eqn:Ek; [|reflexivity].
    apply String.eqb_eq in Ek. subst k. rewrite E. reflexivity.
Qed.

Lemma accumulate_NoDup (st : Totals) (file : string) (r : Report) :
  NoDup (map fst (idMap st)) -> NoDup (map fst (idMap (accumulate st file r))).
Proof.
  intros H. unfold accumulate. cbn [idMap].
  destruct (truthy (reportedId r)); [|exact H].
  destruct (reportedId r) as [s|]; [|exact H].
  unfold Map_push.
  assert (H' : NoDup (map fst (if negb (Map_has (idMap st) s)
                               then Map_set (idMap st) s [] else idMap st))).
  { destruct (negb (Map_has (idMap st) s)); [apply Map_set_NoDup|]; exact H. }
  destruct (Map_get _ s); [apply Map_set_NoDup|]; exact H'.
Qed.

(** ** The accumulators *)

Lemma list_sum_cons (n : nat) (l : list nat) : list_sum (n :: l) = n + list_sum l.
Proof. reflexivity. Qed.

Lemma tally_cons (st : Totals) (fr : string * Report) (rest : list (string * Report)) :
  tally st (fr :: rest) = tally (accumulate st (fst fr) (snd fr)) rest.
Proof. reflexivity. Qed.

Lemma tally_get (reports : list (string * Report)) (k : string) :
  forall st : Totals,
    Map_get (idMap (tally st reports)) k =
    match filesOf k reports with
    | [] => Map_get (idMap st) k
    | l => Some (match Map_get (idMap st) k with Some l0 => l0 | None => [] end ++ l)
    end.
Proof.
  induction reports as [|[file r] rest IH]; intros st; [reflexivity|].
  rewrite tally_cons, IH, accumulate_get. cbn [fst snd].
  unfold filesOf. cbn [filter].
  destruct (declares k (file, r)); cbn [map fst].
  - destruct (map fst (filter (declares k) rest)); [reflexivity|].
    rewrite <- app_assoc. reflexivity.
  - reflexivity.
Qed.

Lemma tally_NoDup (reports : list (string * Report)) :
  forall st : Totals,
    NoDup (map fst (idMap st)) -> NoDup (map fst (idMap (tally st reports))).
Proof.
  induction reports as [|fr rest IH]; intros st H; [exact H|].
  rewrite tally_cons. apply IH, accumulate_NoDup, H.
Qed.

Lemma tally_totalErrors (reports : list (string * Report)) :
  forall st : Totals,
    totalErrors (tally st reports) =
    totalErrors st + list_sum (map (fun fr => errorCount (snd fr)) reports).
Proof.
  induction reports as [|fr rest IH]; intros st; cbn [map]; [cbn; lia|].
  rewrite tally_cons, IH, list_sum_cons. unfold accumulate. cbn [totalErrors]. lia.
Qed.

Lemma tally_totalWarnings (reports : list (string * Report)) :
  forall st : Totals,
    totalWarnings (tally st reports) =
    totalWarnings st + list_sum (map (fun fr => warningCount (snd fr)) reports).
Proof.
  induction reports as [|fr rest IH]; intros st; cbn [map]; [cbn; lia|].
  rewrite tally_cons, IH, list_sum_cons. unfold accumulate. cbn [totalWarnings]. lia.
Qed.

(** Every entry of the map of a run: an identifier that some report
    declares, with the files that declare it, in order. *)
Lemma tally_entries (reports : list (string * Report)) (k : string) (v : list string) :
  In (k, v) (idMap (tally zero reports)) <->
  (v = filesOf k reports /\ v <> []).
Proof.
  rewrite Map_get_In by (apply tally_NoDup; constructor).
  rewrite tally_get. cbn [zero idMap Map_get app].
  destruct (filesOf k reports) as [|f l].
  - split; [discriminate|]. intros [-> H]. contradiction.
  - split.
    + intros H. injection H as <-. split; [reflexivity|discriminate].
    + intros [-> _]. reflexivity.
Qed.

(** ** The loops of the runner *)

Lemma duplicatesLoop_eq (m : IdMap) :
  forall d : nat,
    duplicatesLoop m d =
    (map duplicateLine (filter duplicated m),
     Normal (d + List.length (filter duplicated m))).
Proof.
  induction m as [|[k v] rest IH]; intros d; cbn [duplicatesLoop filter].
  - unfold ret. cbn. rewrite Nat.add_0_r. reflexivity.
  - destruct (duplicated (k, v)) eqn:E; unfold duplicated in E; cbn [snd] in E; rewrite E.
    + rewrite bind_log, IH. cbn [output completes fst snd map List.length].
      rewrite Nat.add_succ_r. reflexivity.
    + apply IH.
Qed.

Section Runner.

Variable JSON_parse : string -> result JSON.
Variable fs : FileSystem.

Lemma filesLoop_eq (files : list string) (rs : list Report) :
  Forall2 (validated JSON_parse fs) files rs ->
  forall st : Totals,
    filesLoop JSON_parse fs files st =
    (flat_map (fun f => output (validateFile JSON_parse fs f)) files,
     Normal (tally st (combine files rs))).
Proof.
  induction 1 as [|f r files rs Hf _ IH]; intros st; [reflexivity|].
  cbn [filesLoop flat_map combine]. rewrite tally_cons.
  rewrite (bind_normal _ _ (output (validateFile JSON_parse fs f)) r).
  - rewrite IH. reflexivity.
  - rewrite (io_eta (validateFile JSON_parse fs f)). unfold validated in Hf.
    rewrite Hf. reflexivity.
Qed.

(** A run that discovers files and validates each to the end: what it
    writes and how it exits. *)
Lemma main_run (entries : list string) (rs : list Report) :
  readdir fs = Ok entries ->
  discovered entries <> [] ->
  Forall2 (validated JSON_parse fs) (discovered entries) rs ->
  let st := tally zero (combine (discovered entries) rs) in
  main JSON_parse fs =
  (flat_map (fun f => output (validateFile JSON_parse fs f)) (discovered entries)
   ++ crossFileSection (idMap st)
   ++ [summaryLine (List.length (discovered entries)) st],
   Exit (if (0 <? totalErrors st + List.length (filter duplicated (idMap st)))%nat
         then 1 else 0)).
Proof.
  intros Hdir Hne Hall st. unfold main. rewrite Hdir.
  fold (discovered entries).
  destruct (discovered entries) as [|f files] eqn:E; [contradiction|].
  cbn [List.length Nat.eqb]. rewrite bind_ret.
  rewrite (bind_normal _ _ _ _ (filesLoop_eq _ _ Hall _)).
  fold zero. fold st.
  rewrite bind_log. cbn [output completes fst snd].
  rewrite (bind_normal _ _ _ _ (duplicatesLoop_eq _ _)).
  cbn [output completes fst snd Nat.add].
  unfold crossFileSection, summaryLine.
  destruct (List.length (filter duplicated (idMap st)) =? 0)%nat;
    rewrite ?bind_ret, ?bind_log; cbn [output completes fst snd process_exit app];
    rewrite ?app_nil_r, <- ?app_assoc; reflexivity.
Qed.

End Runner.

(** ** Structural failures *)

Lemma checkFilename_errors (filename : string) :
  errors (checkFilename filename start) = filenameErrors filename.
Proof.
  unfold checkFilename, filenameErrors.
  destruct (FILENAME_RE_test filename); reflexivity.
Qed.

Lemma printed_failures (before : list string) (msg : string) :
  printed (before ++ [msg]) [] = map failLine (before ++ [msg]).
Proof.
  unfold printed. destruct (before ++ [msg]) eqn:E.
  - destruct before; discriminate.
  - cbn [map app]. rewrite app_nil_r. reflexivity.
Qed.

Lemma validateFile_header (JSON_parse : string -> result JSON) (fs : FileSystem)
    (filename : string) :
  exists rest, output (validateFile JSON_parse fs filename) = header filename :: rest.
Proof.
  unfold validateFile. rewrite bind_log. eexists. reflexivity.
Qed.

(** The report of a file is unique. *)
Lemma validated_functional (JSON_parse : string -> result JSON) (fs : FileSystem)
    (f : string) (r r' : Report) :
  validated JSON_parse fs f r -> validated JSON_parse fs f r' -> r = r'.
Proof. unfold validated. congruence. Qed.

Lemma validated_combine (JSON_parse : string -> result JSON) (fs : FileSystem)
    (files : list string) (rs : list Report) :
  Forall2 (validated JSON_parse fs) files rs ->
  forall f r, In (f, r) (combine files rs) -> validated JSON_parse fs f r.
Proof.
  induction 1 as [|f0 r0 files rs H0 _ IH]; intros f r; cbn [combine In]; [contradiction|].
  intros [E|Hin]; [injection E as <- <-; exact H0|apply IH, Hin].
Qed.

Lemma combine_In_file (JSON_parse : string -> result JSON) (fs : FileSystem)
    (files : list string) (rs : list Report) :
  Forall2 (validated JSON_parse fs) files rs ->
  forall f, In f files -> exists r, In (f, r) (combine files rs).
Proof.
  induction 1 as [|f0 r0 files rs H0 _ IH]; intros f; cbn [combine In]; [contradiction|].
  intros [<-|Hin].
  - exists r0. left. reflexivity.
  - destruct (IH f Hin) as [r Hr]. exists r. right. exact Hr.
Qed.

Lemma list_sum_In (n : nat) (l : list nat) : In n l -> n <= list_sum l.
Proof.
  induction l as [|m l IH]; cbn [In]; [contradiction|].
  rewrite list_sum_cons. intros [->|H]; [lia|]. specialize (IH H). lia.
Qed.

Lemma combine_errorCount (JSON_parse : string -> result JSON) (fs : FileSystem)
    (files : list string) (rs : list Report) :
  Forall2 (validated JSON_parse fs) files rs ->
  list_sum (map (fun fr => errorCount (snd fr)) (combine files rs))
  = list_sum (map errorCount rs).
Proof.
  induction 1 as [|f r files rs _ _ IH]; [reflexivity|].
  cbn [combine map snd]. rewrite !list_sum_cons, IH. reflexivity.
Qed.

Lemma combine_warningCount (JSON_parse : string -> result JSON) (fs : FileSystem)
    (files : list string) (rs : list Report) :
  Forall2 (validated JSON_parse fs) files rs ->
  list_sum (map (fun fr => warningCount (snd fr)) (combine files rs))
  = list_sum (map warningCount rs).
Proof.
  induction 1 as [|f r files rs _ _ IH]; [reflexivity|].
  cbn [combine map snd]. rewrite !list_sum_cons, IH. reflexivity.
Qed.

Lemma accumulate_idMap_ext (st st' : Totals) (f : string) (r r' : Report) :
  idMap st = idMap st' -> reportedId r = reportedId r' ->
  idMap (accumulate st f r) = idMap (accumulate st' f r').
Proof.
  intros Hm Hid. unfold accumulate. cbn [idMap]. rewrite Hm, Hid. reflexivity.
Qed.

Lemma tally_idMap_ext (rs rs' : list Report) :
  Forall2 sameButWarnings rs rs' ->
  forall (files : list string) (st st' : Totals),
    idMap st = idMap st' ->
    idMap (tally st (combine files rs)) = idMap (tally st' (combine files rs')).
Proof.
  induction 1 as [|r r' rs rs' [_ Hid] _ IH]; intros [|f files] st st' Hm;
    cbn [combine]; try exact Hm.
  rewrite !tally_cons. cbn [fst snd]. apply IH, accumulate_idMap_ext; assumption.
Qed.

Lemma sameButWarnings_errors (rs rs' : list Report) :
  Forall2 sameButWarnings rs rs' ->
  list_sum (map errorCount rs) = list_sum (map errorCount rs').
Proof.
  induction 1 as [|r r' rs rs' [He _] _ IH]; [reflexivity|].
  cbn [map]. rewrite !list_sum_cons, He, IH. reflexivity.
Qed.

(** ** The checks of the fields, one by one *)

Lemma typeof_string (v : Value) : (typeof v =? "string") = isString v.
Proof. destruct v as [[]|]; reflexivity. Qed.

Lemma falsy_string (v : Value) :
  isString v = true -> falsy v = negb (isNonEmptyString v).
Proof.
  destruct v as [[]|]; try discriminate. intros _. cbn [falsy isNonEmptyString].
  rewrite negb_involutive. reflexivity.
Qed.

(** The test of lines 105 and 116: the value is no non-empty string. *)
Lemma required_test (v : Value) :
  negb (typeof v =? "string") || falsy v = negb (isNonEmptyString v).
Proof.
  rewrite typeof_string. destruct (isString v) eqn:E.
  - cbn [negb orb]. apply falsy_string, E.
  - destruct v as [[]|]; try discriminate; reflexivity.
Qed.

Lemma checkId_missing (filename : string) (parsed : JSON) :
  isNonEmptyString (get parsed "id") = false ->
  checkId filename parsed start =
  pushError start ("Required field " +++ quoted "id"
                   +++ " is missing or not a non-empty string").
Proof. intros H. unfold checkId. rewrite required_test, H. reflexivity. Qed.

Lemma checkId_present (filename : string) (parsed : JSON) (s : string) :
  get parsed "id" = Some (JString s) ->
  s <> EmptyString ->
  checkId filename parsed start =
  if s =? stemOf filename then setId start s
  else pushWarning (setId start s)
         ("id " +++ quoted s +++ " does not match filename stem "
          +++ quoted (stemOf filename)).
Proof.
  intros H Hs. unfold checkId. rewrite required_test, H.
  cbn [isNonEmptyString]. apply String.eqb_neq in Hs. rewrite Hs. cbn [negb].
  unfold stemOf. destruct (s =? basename filename (extname filename)); reflexivity.
Qed.

Lemma checkName_valid (parsed : JSON) :
  isNonEmptyString (get parsed "name") = true -> checkName parsed start = start.
Proof. intros H. unfold checkName. rewrite required_test, H. reflexivity. Qed.

Lemma checkName_id (parsed : JSON) : id (checkName parsed start) = None.
Proof. unfold checkName. destruct (_ || _); reflexivity. Qed.

Lemma checkSupplement_valid (parsed : JSON) :
  isString (get parsed "supplement") = true -> checkSupplement parsed start = start.
Proof. intros H. unfold checkSupplement. rewrite typeof_string, H. reflexivity. Qed.

Lemma checkSupplement_id (parsed : JSON) : id (checkSupplement parsed start) = None.
Proof. unfold checkSupplement. destruct (negb _); reflexivity. Qed.

Lemma has_absent (parsed : JSON) (key : string) :
  has parsed key = negb (absent (get parsed key)).
Proof. unfold has, absent. destruct (get parsed key); reflexivity. Qed.

Lemma checkDescription_absent (parsed : JSON) :
  absent (get parsed "description") = true ->
  checkDescription parsed start =
  pushWarning start ("Field " +++ quoted "description"
                     +++ " is missing (will default to empty string on import)").
Proof. intros H. unfold checkDescription. rewrite has_absent, H. reflexivity. Qed.

Lemma checkDescription_valid (parsed : JSON) :
  isString (get parsed "description") = true -> checkDescription parsed start = start.
Proof.
  intros H. unfold checkDescription. rewrite has_absent, typeof_string, H.
  destruct (get parsed "description"); [reflexivity|discriminate].
Qed.

Lemma checkDescription_id (parsed : JSON) : id (checkDescription parsed start) = None.
Proof.
  unfold checkDescription. destruct (negb (has _ _)); [reflexivity|].
  destruct (negb _); reflexivity.
Qed.

Lemma category_absent (parsed : JSON) :
  absent (get parsed "category") = true ->
  categoryConverts parsed = true
  /\ categoryLocals parsed =
     pushWarning start ("Field " +++ quoted "category" +++ " is missing (will default to "
                        +++ quoted "general" +++ " on import)").
Proof.
  intros H. unfold categoryConverts, categoryLocals, checkCategory.
  rewrite has_absent, H. split; reflexivity.
Qed.

Lemma category_valid (parsed : JSON) :
  includes VALID_CATEGORIES (get parsed "category") = true ->
  categoryConverts parsed = true /\ categoryLocals parsed = start.
Proof.
  intros H. unfold categoryConverts, categoryLocals, checkCategory.
  rewrite H, has_absent.
  destruct (get parsed "category"); [|discriminate]. split; reflexivity.
Qed.

Lemma categoryLocals_id (parsed : JSON) : id (categoryLocals parsed) = None.
Proof.
  unfold categoryLocals, checkCategory.
  destruct (negb (has _ _)); [reflexivity|].
  destruct (negb (includes _ _)); [|reflexivity].
  destruct (ToString_value _); reflexivity.
Qed.

(** One turn of the loop over [examples] adds the errors the specification
    asks for the element. *)
Lemma examplesLoop_cons (i : nat) (ex : JSON) (rest : list JSON) :
  examplesLoop i (ex :: rest) start
  = merge {| errors := exampleErrors i ex; warnings := []; id := None |}
          (examplesLoop (S i) rest start).
Proof.
  cbn [examplesLoop]. rewrite topLevel_isRecord, !typeof_string.
  unfold exampleErrors.
  destruct (isRecord ex); cbn [negb].
  - rewrite examplesLoop_merge. f_equal.
    destruct (isString (get ex "scenario")); destruct (isString (get ex "commands"));
      reflexivity.
  - rewrite examplesLoop_merge. reflexivity.
Qed.

Lemma examplesLoop_errors (examples : list JSON) :
  forall i : nat,
    examplesLoop i examples start
    = {| errors := examplesErrors i examples;
         warnings := [];
         id := None |}.
Proof.
  induction examples as [|ex rest IH]; intros i; [reflexivity|].
  rewrite examplesLoop_cons, IH. reflexivity.
Qed.

Lemma exampleErrors_valid (i : nat) (ex : JSON) :
  validExample ex = true -> exampleErrors i ex = [].
Proof.
  unfold validExample, exampleErrors. intros H.
  apply andb_prop in H. destruct H as [H Hc].
  apply andb_prop in H. destruct H as [Hr Hs].
  rewrite Hr, Hs, Hc. reflexivity.
Qed.

Lemma examples_valid (examples : list JSON) :
  forallb validExample examples = true ->
  forall i : nat,
    examplesErrors i examples = [].
Proof.
  induction examples as [|ex rest IH]; intros H i; [reflexivity|].
  cbn [forallb] in H. apply andb_prop in H. destruct H as [Hex Hrest].
  unfold examplesErrors in *. cbn [indexedFrom flat_map fst snd].
  rewrite (exampleErrors_valid _ _ Hex), (IH Hrest). reflexivity.
Qed.

Lemma checkExamples_absent (parsed : JSON) :
  absent (get parsed "examples") = true ->
  checkExamples parsed start =
  pushWarning start ("Field " +++ quoted "examples"
                     +++ " is missing (will default to empty array on import)").
Proof. intros H. unfold checkExamples. rewrite has_absent, H. reflexivity. Qed.

Lemma checkExamples_array (parsed : JSON) (examples : list JSON) :
  get parsed "examples" = Some (JArray examples) ->
  checkExamples parsed start
  = {| errors := examplesErrors 0 examples;
       warnings := [];
       id := None |}.
Proof.
  intros H. unfold checkExamples. rewrite has_absent, H. cbn [absent negb].
  apply examplesLoop_errors.
Qed.

Lemma checkExamples_other (parsed : JSON) (v : JSON) :
  get parsed "examples" = Some v ->
  Array_isArray (Some v) = false ->
  checkExamples parsed start
  = pushError start ("Field " +++ quoted "examples" +++ " must be an array").
Proof.
  intros H Hv. unfold checkExamples. rewrite has_absent, H. cbn [absent negb].
  destruct v; try reflexivity. discriminate.
Qed.

Lemma checkExamples_id (parsed : JSON) : id (checkExamples parsed start) = None.
Proof.
  unfold checkExamples. destruct (negb (has _ _)); [reflexivity|].
  destruct (get parsed "examples") as [[| | | |examples|]|]; try reflexivity.
  rewrite examplesLoop_errors. reflexivity.
Qed.

(** The keys outside the known ones, in the order of [Object.keys]. *)
Lemma checkUnknown_eq (parsed : JSON) :
  checkUnknown parsed start
  = {| errors := [];
       warnings := map (fun key => "Unknown field " +++ quoted key
                                   +++ " (will be ignored on import)")
                       (filter (fun key => negb (Set_has knownFields key))
                               (Object_keys parsed));
       id := None |}.
Proof.
  unfold checkUnknown. induction (Object_keys parsed) as [|key rest IH] using rev_ind.
  - reflexivity.
  - rewrite fold_left_app, filter_app, map_app. cbn [fold_left filter].
    rewrite IH. destruct (negb (Set_has knownFields key)).
    + reflexivity.
    + cbn [map]. rewrite app_nil_r. reflexivity.
Qed.

Lemma checkUnknown_known (parsed : JSON) :
  forallb (Set_has knownFields) (Object_keys parsed) = true ->
  checkUnknown parsed start = start.
Proof.
  intros H. rewrite checkUnknown_eq.
  replace (filter (fun key => negb (Set_has knownFields key)) (Object_keys parsed))
    with (@nil string); [reflexivity|].
  induction (Object_keys parsed) as [|key rest IH]; [reflexivity|].
  cbn [forallb] in H. apply andb_prop in H. destruct H as [Hk Hrest].
  cbn [filter]. rewrite Hk. cbn [negb]. apply IH, Hrest.
Qed.


Lemma examplesErrors_cons (i : nat) (ex : JSON) (rest : list JSON) :
  examplesErrors i (ex :: rest) = exampleErrors i ex ++ examplesErrors (S i) rest.
Proof. reflexivity. Qed.


(** ** The report of a record *)

Lemma fieldLocals_id (filename : string) (parsed : JSON) :
  id (merge (checkFilename filename start) (fieldLocals filename parsed))
  = id (checkId filename parsed start).
Proof.
  unfold fieldLocals, merge. cbn [id].
  rewrite checkUnknown_eq, checkExamples_id, categoryLocals_id, checkDescription_id,
    checkSupplement_id, checkName_id.
  cbn [id]. destruct (id (checkId filename parsed start)); [reflexivity|].
  apply checkFilename_warnings.
Qed.

Lemma fieldLocals_errors (filename : string) (parsed : JSON) :
  errors (merge (checkFilename filename start) (fieldLocals filename parsed))
  = filenameErrors filename
    ++ errors (checkId filename parsed start)
    ++ errors (checkName parsed start)
    ++ errors (checkSupplement parsed start)
    ++ errors (checkDescription parsed start)
    ++ errors (categoryLocals parsed)
    ++ errors (checkExamples parsed start).
Proof.
  unfold fieldLocals, merge. cbn [errors].
  rewrite checkUnknown_eq, checkFilename_errors. cbn [errors].
  rewrite app_nil_r. reflexivity.
Qed.

Lemma printed_In_error (es ws : list string) (msg : string) :
  In msg es -> In (failLine msg) (printed es ws).
Proof.
  intros H. unfold printed. destruct es as [|e es]; [contradiction|].
  apply in_or_app. left. apply in_map, H.
Qed.

Lemma printed_In_warning (es ws : list string) (msg : string) :
  In msg ws -> In (warnLine msg) (printed es ws).
Proof.
  intros H. unfold printed.
  destruct es as [|e es]; destruct ws as [|w ws]; try contradiction;
    apply in_or_app; right; apply in_map, H.
Qed.

Lemma otherFieldsPass_errors (parsed : JSON) :
  otherFieldsPass parsed = true ->
  categoryConverts parsed = true
  /\ errors (checkName parsed start) = []
  /\ errors (checkSupplement parsed start) = []
  /\ errors (checkDescription parsed start) = []
  /\ errors (categoryLocals parsed) = []
  /\ errors (checkExamples parsed start) = [].
Proof.
  unfold otherFieldsPass. intros H.
  repeat (apply andb_prop in H; let H' := fresh "H" in destruct H as [H H']).
  rewrite (checkName_valid _ H), (checkSupplement_valid _ H3).
  assert (Hd : errors (checkDescription parsed start) = []).
  { apply orb_prop in H2. destruct H2 as [Ha|Hs].
    - rewrite (checkDescription_absent _ Ha). reflexivity.
    - rewrite (checkDescription_valid _ Hs). reflexivity. }
  assert (Hc : categoryConverts parsed = true /\ errors (categoryLocals parsed) = []).
  { apply orb_prop in H1. destruct H1 as [Ha|Hv].
    - destruct (category_absent _ Ha) as [-> ->]. split; reflexivity.
    - destruct (category_valid _ Hv) as [-> ->]. split; reflexivity. }
  assert (He : errors (checkExamples parsed start) = []).
  { apply orb_prop in H0. destruct H0 as [Ha|Hv].
    - rewrite (checkExamples_absent _ Ha). reflexivity.
    - destruct (get parsed "examples") as [[| | | |examples|]|] eqn:E; try discriminate.
      rewrite (checkExamples_array _ _ E). cbn [errors]. apply examples_valid, Hv. }
  destruct Hc as [Hc1 Hc2]. repeat split; assumption || reflexivity.
Qed.

(** ** Who takes part in the detection of duplicates *)

Lemma filesOf_In (reports : list (string * Report)) (k f : string) :
  In f (filesOf k reports) <-> exists r, In (f, r) reports /\ declares k (f, r) = true.
Proof.
  unfold filesOf. rewrite in_map_iff. split.
  - intros [[f' r] [E H]]. cbn [fst] in E. subst f'.
    apply filter_In in H. exists r. exact H.
  - intros [r H]. exists (f, r). split; [reflexivity|]. apply filter_In, H.
Qed.

Lemma declares_id (k f : string) (r : Report) :
  declares k (f, r) = true <-> reportedId r = Some k /\ k <> EmptyString.
Proof.
  unfold declares. cbn [snd]. destruct (reportedId r) as [s|].
  - split.
    + intros H. apply andb_prop in H. destruct H as [Hne Heq].
      apply String.eqb_eq in Heq. subst s. split; [reflexivity|].
      intros ->. discriminate.
    + intros [E Hne]. injection E as ->. rewrite String.eqb_refl.
      apply String.eqb_neq in Hne. rewrite Hne. reflexivity.
  - split; [discriminate|]. intros [E _]. discriminate.
Qed.

Lemma filter_none {X : Type} (f : X -> bool) (l : list X) :
  (forall x, In x l -> f x = false) -> filter f l = [].
Proof.
  induction l as [|x rest IH]; intros H; [reflexivity|].
  cbn [filter]. rewrite (H x (or_introl eq_refl)).
  apply IH. intros y Hy. apply H. right. exact Hy.
Qed.

(** Reports with pairwise distinct identifiers: no identifier has two
    files. *)
Lemma distinct_filesOf (reports : list (string * Report)) (k : string) :
  NoDup (map (fun fr => reportedId (snd fr)) reports) ->
  List.length (filesOf k reports) <= 1.
Proof.
  unfold filesOf. induction reports as [|[f r] rest IH]; intros H; [cbn; lia|].
  cbn [map snd] in H. inversion H as [|? ? Hnot Hrest]; subst.
  cbn [filter]. destruct (declares k (f, r)) eqn:E.
  - apply declares_id in E. destruct E as [E _].
    rewrite filter_none; [cbn; lia|].
    intros [f' r'] Hin. destruct (declares k (f', r')) eqn:E'; [|reflexivity].
    apply declares_id in E'. destruct E' as [E' _].
    exfalso. apply Hnot. rewrite E, <- E'.
    apply (in_map (fun fr : string * Report => reportedId (snd fr))) in Hin. exact Hin.
  - apply IH, Hrest.
Qed.

(** ** Valid documents *)

Lemma conformant_locals (filename : string) (parsed : JSON) :
  conformant filename parsed = true ->
  isRecord parsed = true
  /\ categoryConverts parsed = true
  /\ idOf parsed = Some (stemOf filename)
  /\ merge (checkFilename filename start) (fieldLocals filename parsed)
     = setId start (stemOf filename).
Proof.
  unfold conformant. intros H.
  repeat (apply andb_prop in H; let H' := fresh "H" in destruct H as [H H']).
  destruct (get parsed "id") as [[| | |s| |]|] eqn:Eid; try discriminate.
  apply andb_prop in H6. destruct H6 as [Hne Hstem].
  apply String.eqb_eq in Hstem. apply negb_true_iff, String.eqb_neq in Hne.
  destruct (get parsed "examples") as [[| | | |examples|]|] eqn:Eex; try discriminate.
  destruct (category_valid _ H2) as [Hcat Hcl].
  split; [exact H7|]. split; [exact Hcat|].
  split; [unfold idOf; rewrite Eid, Hstem; reflexivity|].
  unfold fieldLocals, checkFilename.
  rewrite H. cbn [negb].
  rewrite (checkId_present _ _ _ Eid Hne), <- Hstem, String.eqb_refl.
  rewrite (checkName_valid _ H5), (checkSupplement_valid _ H4),
    (checkDescription_valid _ H3), Hcl, (checkExamples_array _ _ Eex),
    (examples_valid _ H1), (checkUnknown_known _ H0).
  fold start. rewrite !merge_start_r, merge_start_l. reflexivity.
Qed.

Lemma conformant_report (JSON_parse : string -> result JSON) (fs : FileSystem)
    (filename : string) (parsed : JSON) :
  holds JSON_parse fs filename parsed ->
  conformant filename parsed = true ->
  validateFile JSON_parse fs filename
  = ([header filename; Stdout "  ok"], Normal (clean (idOf parsed))).
Proof.
  intros [content [Hread Hparse]] Hc.
  destruct (conformant_locals _ _ Hc) as (Hrec & Hcat & Hid & Hl).
  assert (Hrp : readAndParse JSON_parse fs filename = Ok parsed).
  { unfold readAndParse. rewrite Hread. exact Hparse. }
  rewrite (validateFile_record JSON_parse fs filename parsed Hrp Hrec Hcat).
  cbv zeta. rewrite Hl, Hid. reflexivity.
Qed.

Lemma conformant_reports (JSON_parse : string -> result JSON) (fs : FileSystem)
    (files : list string) (docs : list JSON) :
  Forall2 (fun f d => holds JSON_parse fs f d /\ conformant f d = true) files docs ->
  Forall2 (validated JSON_parse fs) files (map (fun d => clean (idOf d)) docs).
Proof.
  induction 1 as [|f d files docs [Hh Hc] _ IH]; cbn [map]; constructor; [|exact IH].
  unfold validated. rewrite (conformant_report _ _ _ _ Hh Hc). reflexivity.
Qed.

Lemma combine_snd (JSON_parse : string -> result JSON) (fs : FileSystem)
    (files : list string) (rs : list Report) :
  Forall2 (validated JSON_parse fs) files rs -> map snd (combine files rs) = rs.
Proof.
  induction 1 as [|f r files rs _ _ IH]; [reflexivity|].
  cbn [combine map snd]. rewrite IH. reflexivity.
Qed.

(** ** What validateFile writes *)

Lemma validateFile_cases (JSON_parse : string -> result JSON) (fs : FileSystem)
    (filename : string) :
  (exists es ws i,
      validateFile JSON_parse fs filename
      = (header filename :: printed es ws,
         Normal {| errorCount := List.length es;
                   warningCount := List.length ws;
                   reportedId := i |}))
  \/ validateFile JSON_parse fs filename
     = ([header filename], Throw "Cannot convert object to primitive value").
Proof.
  destruct (readAndParse JSON_parse fs filename) as [parsed|message] eqn:E.
  - destruct (isRecord parsed) eqn:Hrec.
    + destruct (categoryConverts parsed) eqn:Hcat.
      * left. do 3 eexists. apply (validateFile_record _ _ _ _ E Hrec Hcat).
      * right. apply (validateFile_throws _ _ _ _ E Hrec Hcat).
    + left. exists (errors (checkFilename filename start)
                    ++ ["Top-level value must be a JSON object"]), [], None.
      rewrite (validateFile_shape _ _ _ _ E Hrec), length_app, Nat.add_comm.
      reflexivity.
  - left. exists (errors (checkFilename filename start) ++ ["Invalid JSON: " +++ message]),
             [], None.
    rewrite (validateFile_caught _ _ _ _ E), length_app, Nat.add_comm. reflexivity.
Qed.

(** ** Discovery *)

Lemma insertSorted_In (x y : string) (l : list string) :
  In y (insertSorted x l) <-> y = x \/ In y l.
Proof.
  induction l as [|z rest IH]; cbn [insertSorted In].
  - split; [intros [<-|[]]; left; reflexivity|intros [->|[]]; left; reflexivity].
  - destruct (x <=? z)%string; cbn [In].
    + split; [intros [<-|H]; [left; reflexivity|right; exact H]
             |intros [->|H]; [left; reflexivity|right; exact H]].
    + rewrite IH. tauto.
Qed.

Lemma sort_In (y : string) (l : list string) : In y (sort l) <-> In y l.
Proof.
  induction l as [|x rest IH]; cbn [sort In]; [tauto|].
  rewrite insertSorted_In, IH. split; intros [H|H]; auto.
Qed.

(** The files of a run are the entries that end with [.json]. *)
Lemma discovered_In (entries : list string) (f : string) :
  In f (discovered entries) <-> In f entries /\ Str.endsWith f ".json" = true.
Proof. unfold discovered. rewrite sort_In, filter_In. reflexivity. Qed.

(** The guard of lines 27-30: a run that discovers nothing. *)
Lemma main_nothing (JSON_parse : string -> result JSON) (fs : FileSystem)
    (entries : list string) :
  readdir fs = Ok entries ->
  discovered entries = [] ->
  main JSON_parse fs = ([Stderr "No .json files found in strategies/"], Exit 1).
Proof.
  intros Hdir Hnone. unfold main. rewrite Hdir. fold (discovered entries).
  rewrite Hnone. reflexivity.
Qed.

(** A record that is validated to the end: its [category] converts, and the
    report is that of its checks. *)
Lemma validated_record (JSON_parse : string -> result JSON) (fs : FileSystem)
    (filename : string) (parsed : JSON) (r : Report) :
  holds JSON_parse fs filename parsed ->
  isRecord parsed = true ->
  validated JSON_parse fs filename r ->
  let l := merge (checkFilename filename start) (fieldLocals filename parsed) in
  categoryConverts parsed = true
  /\ validateFile JSON_parse fs filename
     = (header filename :: printed (errors l) (warnings l), Normal r)
  /\ r = {| errorCount := List.length (errors l);
            warningCount := List.length (warnings l);
            reportedId := id (checkId filename parsed start) |}.
Proof.
  intros [content [Hread Hparse]] Hrec Hval l.
  assert (Hrp : readAndParse JSON_parse fs filename = Ok parsed).
  { unfold readAndParse. rewrite Hread. exact Hparse. }
  unfold validated in Hval.
  destruct (categoryConverts parsed) eqn:Hcat.
  - pose proof (validateFile_record JSON_parse fs filename parsed Hrp Hrec Hcat) as Hv.
    cbv zeta in Hv. rewrite fieldLocals_id in Hv. fold l in Hv.
    rewrite Hv in Hval. unfold completes, snd in Hval.
    injection Hval as <-. split; [reflexivity|]. split; [exact Hv|reflexivity].
  - rewrite (validateFile_throws JSON_parse fs filename parsed Hrp Hrec Hcat) in Hval.
    discriminate.
Qed.

Lemma converts_validated (JSON_parse : string -> result JSON) (fs : FileSystem)
    (filename : string) (parsed : JSON) :
  holds JSON_parse fs filename parsed ->
  isRecord parsed = true ->
  categoryConverts parsed = true ->
  exists r, validated JSON_parse fs filename r.
Proof.
  intros [content [Hread Hparse]] Hrec Hcat.
  assert (Hrp : readAndParse JSON_parse fs filename = Ok parsed).
  { unfold readAndParse. rewrite Hread. exact Hparse. }
  eexists. unfold validated.
  rewrite (validateFile_record JSON_parse fs filename parsed Hrp Hrec Hcat).
  reflexivity.
Qed.



(** * The claims of the specification *)

Section Claims.

Variable JSON_parse : string -> result JSON.

(** C8: when the listing of the directory holds no entry with the
    extension, the run writes one fatal error, exits with status 1, and
    validates no file: nothing else is written, in particular no header
    of a per-file section. *)
Theorem C8_no_candidate_file_is_fatal (fs : FileSystem) (entries : list string) :
  readdir fs = Ok entries ->
  filter (fun f => Str.endsWith f ".json") entries = [] ->
  main JSON_parse fs = ([Stderr "No .json files found in strategies/"], Exit 1)
  /\ forall f, ~ In (header f) (output (main JSON_parse fs)).
Proof.
  intros Hdir Hnone.
  assert (E : main JSON_parse fs
              = ([Stderr "No .json files found in strategies/"], Exit 1)).
  { apply (main_nothing JSON_parse fs entries Hdir).
    unfold discovered. rewrite Hnone. reflexivity. }
  split; [exact E|].
  intros f. rewrite E. cbn [output fst In]. intros [H|[]]. discriminate.
Qed.

(** C2: a text that does not parse gives exactly one error, which carries
    the message of the parser, after the error of the filename if any; no
    warning, no check of a field, and no identifier.  A text that parses
    to [null], a sequence or a scalar gives in the same way exactly one
    error on the top-level shape, and no identifier. *)
Theorem C2_structural_failure_short_circuits (fs : FileSystem)
    (filename content : string) :
  readFile fs filename = Ok content ->
  (forall message,
      JSON_parse content = Err message ->
      validateFile JSON_parse fs filename =
      (header filename
         :: map failLine (filenameErrors filename ++ ["Invalid JSON: " +++ message]),
       Normal {| errorCount := S (List.length (filenameErrors filename));
                 warningCount := 0;
                 reportedId := None |}))
  /\ (forall parsed,
         JSON_parse content = Ok parsed ->
         isRecord parsed = false ->
         validateFile JSON_parse fs filename =
         (header filename
            :: map failLine (filenameErrors filename
                             ++ ["Top-level value must be a JSON object"]),
          Normal {| errorCount := S (List.length (filenameErrors filename));
                    warningCount := 0;
                    reportedId := None |}))
  /\ (FILENAME_RE_test filename = true -> filenameErrors filename = []).
Proof.
  intros Hread. repeat split.
  - intros message Hparse.
    rewrite (validateFile_caught JSON_parse fs filename message).
    + rewrite checkFilename_errors, printed_failures. reflexivity.
    + unfold readAndParse. rewrite Hread. exact Hparse.
  - intros parsed Hparse Hrec.
    rewrite (validateFile_shape JSON_parse fs filename parsed).
    + rewrite checkFilename_errors, printed_failures. reflexivity.
    + unfold readAndParse. rewrite Hread. exact Hparse.
    + exact Hrec.
  - intros H. unfold filenameErrors. rewrite H. reflexivity.
Qed.

(** C10: a file whose content cannot be read is no fatal error of the
    run.  It is caught with the parse failures: exactly one error with
    the message of the failure, no identifier, and [validateFile] returns.
    The loop goes on with the files that remain, with that error added to
    the total, and a run that validates every file exits with status 1
    after having written the section of each discovered file. *)
Theorem C10_unreadable_file_is_a_per_file_error (fs : FileSystem)
    (filename message : string) :
  readFile fs filename = Err message ->
  let r := {| errorCount := S (List.length (filenameErrors filename));
              warningCount := 0;
              reportedId := None |} in
  validateFile JSON_parse fs filename =
  (header filename
     :: map failLine (filenameErrors filename ++ ["Invalid JSON: " +++ message]),
   Normal r)
  /\ (forall rest st,
         let next := filesLoop JSON_parse fs rest (accumulate st filename r) in
         filesLoop JSON_parse fs (filename :: rest) st =
         (output (validateFile JSON_parse fs filename) ++ output next, completes next))
  /\ (forall st,
         totalErrors (accumulate st filename r) = totalErrors st + errorCount r
         /\ idMap (accumulate st filename r) = idMap st)
  /\ (forall entries rs,
         readdir fs = Ok entries ->
         In filename (discovered entries) ->
         Forall2 (validated JSON_parse fs) (discovered entries) rs ->
         completes (main JSON_parse fs) = Exit 1
         /\ forall f, In f entries -> Str.endsWith f ".json" = true ->
                      In (header f) (output (main JSON_parse fs))).
Proof.
  intros Hread r.
  assert (Hv : validateFile JSON_parse fs filename =
               (header filename
                  :: map failLine (filenameErrors filename
                                   ++ ["Invalid JSON: " +++ message]),
                Normal r)).
  { rewrite (validateFile_caught JSON_parse fs filename message).
    - rewrite checkFilename_errors, printed_failures. reflexivity.
    - unfold readAndParse. rewrite Hread. reflexivity. }
  split; [exact Hv|]. split; [|split].
  - intros rest st next. cbn [filesLoop].
    rewrite (bind_normal _ _ _ _ Hv). rewrite Hv. reflexivity.
  - intros st. split; reflexivity.
  - intros entries rs Hdir Hin Hall.
    assert (Hne : discovered entries <> []).
    { intros E. rewrite E in Hin. contradiction. }
    rewrite (main_run JSON_parse fs entries rs Hdir Hne Hall).
    cbn [completes output fst snd]. split.
    + destruct (combine_In_file _ _ _ _ Hall filename Hin) as [r' Hr'].
      assert (r' = r).
      { apply (validated_functional JSON_parse fs filename).
        - apply (validated_combine _ _ _ _ Hall), Hr'.
        - unfold validated. rewrite Hv. reflexivity. }
      subst r'.
      rewrite tally_totalErrors. cbn [zero totalErrors Nat.add].
      assert (Hle : errorCount r
                    <= list_sum (map (fun fr => errorCount (snd fr))
                                     (combine (discovered entries) rs))).
      { apply list_sum_In.
        apply (in_map (fun fr : string * Report => errorCount (snd fr))) in Hr'.
        exact Hr'. }
      cbn [r errorCount] in Hle.
      destruct (0 <? _)%nat eqn:E; [reflexivity|].
      apply Nat.ltb_ge in E. lia.
    + intros f Hf Hjson. apply in_or_app. left.
      apply in_flat_map. exists f. split; [apply discovered_In; split; assumption|].
      destruct (validateFile_header JSON_parse fs f) as [rest ->]. left. reflexivity.
Qed.

(** C1, as amended: in a run that discovers at least one file and
    validates each of them to the end, the final exit status is 1 if and
    only if the total of errors, the errors of every file plus the
    duplicated identifiers of the cross-file check, is greater than zero,
    and 0 otherwise.  A run that discovers no file exits with status 1
    with no error counted.  In both, the warnings have no part: two runs
    over the same files whose reports agree on errors and identifiers exit
    alike. *)
Theorem C1_exit_status_counts_errors_only (fs : FileSystem)
    (entries : list string) (rs : list Report) :
  readdir fs = Ok entries ->
  Forall2 (validated JSON_parse fs) (discovered entries) rs ->
  let perFile := list_sum (map errorCount rs) in
  let crossFile :=
    List.length (filter duplicated
                   (idMap (tally zero (combine (discovered entries) rs)))) in
  (discovered entries <> [] ->
   completes (main JSON_parse fs) = Exit (if (0 <? perFile + crossFile)%nat then 1 else 0)
   /\ (completes (main JSON_parse fs) = Exit 1 <-> 0 < perFile + crossFile)
   /\ (completes (main JSON_parse fs) = Exit 0 <-> perFile + crossFile = 0))
  /\ (discovered entries = [] ->
      completes (main JSON_parse fs) = Exit 1 /\ perFile + crossFile = 0)
  /\ (forall fs' entries' rs',
         readdir fs' = Ok entries' ->
         discovered entries' = discovered entries ->
         Forall2 (validated JSON_parse fs') (discovered entries) rs' ->
         Forall2 sameButWarnings rs rs' ->
         completes (main JSON_parse fs') = completes (main JSON_parse fs)).
Proof.
  intros Hdir Hall perFile crossFile.
  assert (E : discovered entries <> [] ->
              completes (main JSON_parse fs)
              = Exit (if (0 <? perFile + crossFile)%nat then 1 else 0)).
  { intros Hne. rewrite (main_run JSON_parse fs entries rs Hdir Hne Hall).
    cbn [completes snd]. rewrite tally_totalErrors.
    rewrite (combine_errorCount _ _ _ _ Hall). reflexivity. }
  split; [|split].
  - intros Hne. specialize (E Hne). split; [exact E|]. split.
    + rewrite E. destruct (0 <? perFile + crossFile)%nat eqn:L.
      * apply Nat.ltb_lt in L. split; [intros _; exact L|reflexivity].
      * apply Nat.ltb_ge in L. split; [discriminate|lia].
    + rewrite E. destruct (0 <? perFile + crossFile)%nat eqn:L.
      * apply Nat.ltb_lt in L. split; [discriminate|lia].
      * apply Nat.ltb_ge in L. split; [lia|reflexivity].
  - intros Hnone. rewrite (main_nothing JSON_parse fs entries Hdir Hnone).
    split; [reflexivity|].
    unfold perFile, crossFile. rewrite Hnone in Hall |- *.
    inversion Hall; subst. reflexivity.
  - intros fs' entries' rs' Hdir' Hsame Hall' Hrs.
    destruct (discovered entries) as [|f files] eqn:Efiles.
    + rewrite (main_nothing JSON_parse fs' entries' Hdir' Hsame).
      rewrite (main_nothing JSON_parse fs entries Hdir Efiles). reflexivity.
    + rewrite E by discriminate.
      assert (Hne' : discovered entries' <> []) by (rewrite Hsame; discriminate).
      rewrite <- Hsame in Hall'.
      rewrite (main_run JSON_parse fs' entries' rs' Hdir' Hne' Hall').
      cbn [completes snd]. rewrite tally_totalErrors.
      rewrite (combine_errorCount _ _ _ _ Hall'), Hsame.
      unfold perFile, crossFile.
      rewrite <- (sameButWarnings_errors _ _ Hrs).
      rewrite <- (tally_idMap_ext _ _ Hrs (f :: files) zero zero eq_refl).
      reflexivity.
Qed.

(** C3: the map of a run has one entry for each identifier some file
    declares, holding the files that declare it in the order of
    discovery.  The cross-file check writes one error line for each entry
    with more than one filename, naming the identifier and the filenames
    joined by a comma, and counts one error for each.  When there is
    none, it writes the single success line with the number of
    identifiers, and neither the errors nor the warnings of the run
    change. *)
Theorem C3_cross_file_duplicates (fs : FileSystem)
    (entries : list string) (rs : list Report) :
  readdir fs = Ok entries ->
  discovered entries <> [] ->
  Forall2 (validated JSON_parse fs) (discovered entries) rs ->
  let reports := combine (discovered entries) rs in
  let st := tally zero reports in
  let m := idMap st in
  NoDup (map fst m)
  /\ (forall k v, In (k, v) m <-> v = filesOf k reports /\ v <> [])
  /\ (forall (entries' : IdMap) (duplicates : nat),
         duplicatesLoop entries' duplicates
         = (map duplicateLine (filter duplicated entries'),
            Normal (duplicates + List.length (filter duplicated entries'))))
  /\ output (main JSON_parse fs)
     = flat_map (fun f => output (validateFile JSON_parse fs f)) (discovered entries)
       ++ crossFileSection m
       ++ [summaryLine (List.length (discovered entries)) st]
  /\ (forall k v, In (k, v) m -> 1 < List.length v ->
                  In (Stdout ("  FAIL  Duplicate id " +++ quoted k +++ " in: "
                              +++ Str.join ", " v))
                     (crossFileSection m))
  /\ (filter duplicated m <> [] ->
      crossFileSection m
      = Stdout (Str.LF +++ "Cross-file checks:")
          :: map duplicateLine (filter duplicated m))
  /\ (filter duplicated m = [] ->
      crossFileSection m
      = [Stdout (Str.LF +++ "Cross-file checks:");
         Stdout ("  ok    All " +++ Str.of_nat (List.length m)
                 +++ " strategy IDs are unique")]
      /\ completes (main JSON_parse fs)
         = Exit (if (0 <? list_sum (map errorCount rs))%nat then 1 else 0)
      /\ totalWarnings st = list_sum (map warningCount rs)).
Proof.
  intros Hdir Hne Hall reports st m.
  pose proof (main_run JSON_parse fs entries rs Hdir Hne Hall) as Hrun.
  cbv zeta in Hrun. fold reports in Hrun. fold st in Hrun. fold m in Hrun.
  split; [apply tally_NoDup; constructor|].
  split; [intros k v; apply tally_entries|].
  split; [intros entries' duplicates; apply duplicatesLoop_eq|].
  split; [rewrite Hrun; reflexivity|].
  split; [|split].
  - intros k v Hin Hlen. unfold crossFileSection. right.
    apply in_or_app. left.
    apply (in_map duplicateLine _ (k, v)).
    apply filter_In. split; [exact Hin|].
    unfold duplicated. cbn [snd]. apply Nat.ltb_lt, Hlen.
  - intros Hdup. unfold crossFileSection.
    destruct (filter duplicated m); [contradiction|].
    cbn [List.length Nat.eqb]. rewrite app_nil_r. reflexivity.
  - intros Hnone. unfold crossFileSection. rewrite Hnone. split; [reflexivity|].
    split.
    + rewrite Hrun. cbn [completes snd]. rewrite Hnone. cbn [List.length].
      rewrite Nat.add_0_r. unfold st. rewrite tally_totalErrors.
      unfold reports. rewrite (combine_errorCount _ _ _ _ Hall). reflexivity.
    + unfold st. rewrite tally_totalWarnings.
      unfold reports. rewrite (combine_warningCount _ _ _ _ Hall). reflexivity.
Qed.



(** C7, as amended: a record without [id] gets exactly one error from the
    check of [id].  When it is validated to the end, its report carries no
    identifier; the error of [id] is its only error when the filename
    follows the convention and every other field passes, and comes after
    the error of the filename otherwise.  The runner leaves the map of
    identifiers as it is: the file is under no identifier when duplicates
    are looked for. *)
Theorem C7_missing_id_is_one_error_and_no_identifier (fs : FileSystem)
    (filename : string) (parsed : JSON) :
  holds JSON_parse fs filename parsed ->
  isRecord parsed = true ->
  get parsed "id" = None ->
  let missing := "Required field " +++ quoted "id"
                 +++ " is missing or not a non-empty string" in
  checkId filename parsed start = pushError start missing
  /\ (categoryConverts parsed = true -> exists r, validated JSON_parse fs filename r)
  /\ (forall r,
         validated JSON_parse fs filename r ->
         reportedId r = None
         /\ In (failLine missing) (output (validateFile JSON_parse fs filename))
         /\ (otherFieldsPass parsed = true ->
             errorCount r = S (List.length (filenameErrors filename)))
         /\ (FILENAME_RE_test filename = true ->
             otherFieldsPass parsed = true ->
             errorCount r = 1)
         /\ (forall st, idMap (accumulate st filename r) = idMap st))
  /\ (forall entries rs,
         readdir fs = Ok entries ->
         Forall2 (validated JSON_parse fs) (discovered entries) rs ->
         forall k v,
           In (k, v) (idMap (tally zero (combine (discovered entries) rs))) ->
           ~ In filename v).
Proof.
  intros Hholds Hrec Hid missing.
  assert (Hc : checkId filename parsed start = pushError start missing).
  { apply checkId_missing. rewrite Hid. reflexivity. }
  assert (Hreport : forall r, validated JSON_parse fs filename r -> reportedId r = None).
  { intros r Hval.
    destruct (validated_record _ _ _ _ _ Hholds Hrec Hval) as (_ & _ & ->).
    cbn [reportedId]. rewrite Hc. reflexivity. }
  split; [exact Hc|].
  split; [apply converts_validated; assumption|]. split.
  - intros r Hval. split; [apply Hreport, Hval|].
    destruct (validated_record _ _ _ _ _ Hholds Hrec Hval) as (_ & Hv & Hr).
    assert (Hcount : otherFieldsPass parsed = true ->
                     errorCount r = S (List.length (filenameErrors filename))).
    { intros Hpass. rewrite Hr. cbn [errorCount].
      rewrite fieldLocals_errors, Hc.
      destruct (otherFieldsPass_errors _ Hpass) as (_ & -> & -> & -> & -> & ->).
      cbn [pushError errors start app]. rewrite length_app. cbn [List.length]. lia. }
    split; [|split; [exact Hcount|split]].
    + rewrite Hv. cbn [output fst]. right. apply printed_In_error.
      rewrite fieldLocals_errors, Hc. apply in_or_app. right. left. reflexivity.
    + intros Hname Hpass. rewrite (Hcount Hpass).
      unfold filenameErrors. rewrite Hname. reflexivity.
    + intros st. unfold accumulate. cbn [idMap]. rewrite (Hreport r Hval). reflexivity.
  - intros entries rs Hdir Hall k v Hin Hf.
    apply tally_entries in Hin. destruct Hin as [-> _].
    apply filesOf_In in Hf. destruct Hf as [r' [Hr' Hd]].
    apply declares_id in Hd. destruct Hd as [Hd _].
    rewrite (Hreport r' (validated_combine _ _ _ _ Hall _ _ Hr')) in Hd.
    discriminate.
Qed.

(** C5: a document that parses to a record with every recognized field
    of the right type, an identifier equal to the stem of its filename,
    no unknown key and a filename that follows the convention has zero
    errors and zero warnings: its section is the single [ok].  A
    directory whose discovered files are all such documents, at least
    one, with pairwise distinct identifiers, exits with status 0. *)
Theorem C5_valid_documents_pass :
  (forall fs filename parsed,
      holds JSON_parse fs filename parsed ->
      conformant filename parsed = true ->
      validateFile JSON_parse fs filename
      = ([header filename; Stdout "  ok"],
         Normal {| errorCount := 0; warningCount := 0;
                   reportedId := Some (stemOf filename) |}))
  /\ (forall fs entries docs,
         readdir fs = Ok entries ->
         discovered entries <> [] ->
         Forall2 (fun f d => holds JSON_parse fs f d /\ conformant f d = true)
                 (discovered entries) docs ->
         NoDup (map idOf docs) ->
         completes (main JSON_parse fs) = Exit 0).
Proof.
  split.
  - intros fs filename parsed Hh Hc.
    rewrite (conformant_report _ _ _ _ Hh Hc).
    destruct (conformant_locals _ _ Hc) as (_ & _ & -> & _). reflexivity.
  - intros fs entries docs Hdir Hne Hdocs Hdistinct.
    pose proof (conformant_reports _ _ _ _ Hdocs) as Hall.
    rewrite (main_run JSON_parse fs entries _ Hdir Hne Hall).
    cbn [completes snd].
    rewrite tally_totalErrors, (combine_errorCount _ _ _ _ Hall).
    assert (Hzero : list_sum (map errorCount (map (fun d => clean (idOf d)) docs)) = 0).
    { clear. induction docs as [|d docs IH]; [reflexivity|].
      cbn [map]. rewrite list_sum_cons, IH. reflexivity. }
    rewrite Hzero. cbn [zero totalErrors Nat.add].
    rewrite filter_none; [reflexivity|].
    intros [k v] Hin. apply tally_entries in Hin. destruct Hin as [-> _].
    unfold duplicated. cbn [snd]. apply Nat.ltb_ge.
    apply distinct_filesOf.
    rewrite <- (map_map snd reportedId), (combine_snd _ _ _ _ Hall), map_map.
    exact Hdistinct.
Qed.


End Claims.

(** * The claims on the sample directories *)

(** Evaluates the files of a run and checks the report of each. *)
Ltac reports :=
  match goal with
  | |- Forall2 _ (discovered ?e) _ =>
      let l := eval vm_compute in (discovered e) in
      replace (discovered e) with l by (vm_compute; reflexivity)
  end;
  repeat (constructor; [unfold validated; vm_compute; reflexivity|]);
  constructor.

(** C8 on a directory with a README and notes only. *)
Lemma C8_no_candidate_file_is_fatal_witness :
  readdir Sample.bare = Ok ["README.md"; "notes.txt"]
  /\ main Sample.parse Sample.bare
     = ([Stderr "No .json files found in strategies/"], Exit 1).
Proof.
  split; [vm_compute; reflexivity|].
  apply (C8_no_candidate_file_is_fatal Sample.parse Sample.bare ["README.md"; "notes.txt"]);
    reflexivity.
Defined.

(** C2 on the malformed text of [broken.json]. *)
Lemma C2_structural_failure_short_circuits_witness :
  readFile Sample.mixed "broken.json" = Ok "{ not json"
  /\ validateFile Sample.parse Sample.mixed "broken.json"
     = ([header "broken.json";
         failLine "Invalid JSON: Unexpected token in JSON at position 0"],
        Normal Sample.failed).
Proof.
  split; [vm_compute; reflexivity|].
  exact (proj1 (C2_structural_failure_short_circuits Sample.parse Sample.mixed
                  "broken.json" "{ not json" eq_refl)
               "Unexpected token in JSON at position 0" eq_refl).
Defined.

(** C10 on [gone.json], which cannot be read: the run goes through the
    five files and exits with status 1. *)
Lemma C10_unreadable_file_is_a_per_file_error_witness :
  readFile Sample.mixed "gone.json" = Err "EACCES: permission denied"
  /\ validateFile Sample.parse Sample.mixed "gone.json"
     = ([header "gone.json"; failLine "Invalid JSON: EACCES: permission denied"],
        Normal Sample.failed)
  /\ completes (main Sample.parse Sample.mixed) = Exit 1.
Proof.
  split; [vm_compute; reflexivity|].
  destruct (C10_unreadable_file_is_a_per_file_error Sample.parse Sample.mixed
              "gone.json" "EACCES: permission denied" eq_refl)
    as (Hfile & _ & _ & Hrun).
  split; [exact Hfile|].
  refine (proj1 (Hrun ["general.json"; "broken.json"; "list.json"; "gone.json";
                       "anonymous.json"]
                      Sample.mixedReports eq_refl _ _)).
  - vm_compute. tauto.
  - reports.
Defined.

(** C1 on two files that declare the same identifier: no file has an
    error, the cross-file check has one, and the status is 1. *)
Lemma C1_exit_status_counts_errors_only_witness :
  readdir Sample.collided = Ok ["general.json"; "copy.json"]
  /\ discovered ["general.json"; "copy.json"] = ["copy.json"; "general.json"]
  /\ list_sum (map errorCount Sample.collidedReports) = 0
  /\ completes (main Sample.parse Sample.collided) = Exit 1.
Proof.
  split; [vm_compute; reflexivity|]. split; [vm_compute; reflexivity|].
  split; [vm_compute; reflexivity|].
  refine (proj1 (proj1 (C1_exit_status_counts_errors_only Sample.parse Sample.collided
                          ["general.json"; "copy.json"] Sample.collidedReports
                          eq_refl _) _)).
  - reports.
  - vm_compute. discriminate.
Defined.

(** C1 as the specification states it fails on a directory without any
    [.json] file: no error is counted, and the status is 1. *)
Lemma C1_exit_status_counterexample :
  discovered ["README.md"; "notes.txt"] = []
  /\ list_sum (map errorCount [])
     + List.length (filter duplicated (idMap (tally zero (combine [] [])))) = 0
  /\ completes (main Sample.parse Sample.bare) = Exit 1
  /\ ~ (forall fs entries rs,
           readdir fs = Ok entries ->
           Forall2 (validated Sample.parse fs) (discovered entries) rs ->
           (completes (main Sample.parse fs) = Exit 1
            <-> 0 < list_sum (map errorCount rs)
                    + List.length
                        (filter duplicated
                           (idMap (tally zero (combine (discovered entries) rs)))))).
Proof.
  assert (Hnone : discovered ["README.md"; "notes.txt"] = [])
    by (vm_compute; reflexivity).
  assert (Hexit : completes (main Sample.parse Sample.bare) = Exit 1)
    by (vm_compute; reflexivity).
  split; [exact Hnone|]. split; [vm_compute; reflexivity|]. split; [exact Hexit|].
  intros H.
  assert (Hall : Forall2 (validated Sample.parse Sample.bare)
                         (discovered ["README.md"; "notes.txt"]) [])
    by (rewrite Hnone; constructor).
  pose proof (proj1 (H Sample.bare ["README.md"; "notes.txt"] [] eq_refl Hall) Hexit)
    as Hpos.
  rewrite Hnone in Hpos. cbn in Hpos. lia.
Qed.

(** C3 on the same directory: one line names the identifier and both
    files, in the order of the run. *)
Lemma C3_cross_file_duplicates_witness :
  readdir Sample.collided = Ok ["general.json"; "copy.json"]
  /\ idMap (tally zero (combine (discovered ["general.json"; "copy.json"])
                                Sample.collidedReports))
     = [("general", ["copy.json"; "general.json"])]
  /\ In (Stdout ("  FAIL  Duplicate id " +++ quoted "general" +++ " in: "
                 +++ "copy.json, general.json"))
        (output (main Sample.parse Sample.collided)).
Proof.
  split; [vm_compute; reflexivity|]. split; [vm_compute; reflexivity|].
  assert (Hne : discovered ["general.json"; "copy.json"] <> [])
    by (vm_compute; discriminate).
  assert (Hall : Forall2 (validated Sample.parse Sample.collided)
                         (discovered ["general.json"; "copy.json"])
                         Sample.collidedReports)
    by reports.
  destruct (C3_cross_file_duplicates Sample.parse Sample.collided
              ["general.json"; "copy.json"] Sample.collidedReports eq_refl Hne Hall)
    as (_ & _ & _ & Hout & Hline & _).
  rewrite Hout. apply in_or_app. right. apply in_or_app. left.
  apply (Hline "general" ["copy.json"; "general.json"]).
  - left. reflexivity.
  - cbn. lia.
Defined.


(** C5 on the two valid strategies of [seeded]. *)
Lemma C5_valid_documents_pass_witness :
  conformant "general.json" Sample.general = true
  /\ conformant "inversion-focus.json" Sample.inversionFocus = true
  /\ completes (main Sample.parse Sample.seeded) = Exit 0.
Proof.
  split; [vm_compute; reflexivity|]. split; [vm_compute; reflexivity|].
  refine (proj2 (C5_valid_documents_pass Sample.parse) Sample.seeded
            ["inversion-focus.json"; "README.md"; "general.json"]
            [Sample.general; Sample.inversionFocus] eq_refl _ _ _).
  - vm_compute. discriminate.
  - replace (discovered ["inversion-focus.json"; "README.md"; "general.json"])
      with ["general.json"; "inversion-focus.json"] by (vm_compute; reflexivity).
    repeat constructor.
    + exists (Sample.stringify Sample.general). split; vm_compute; reflexivity.
    + exists (Sample.stringify Sample.inversionFocus). split; vm_compute; reflexivity.
  - repeat constructor; cbn [In map]; intros H.
    + destruct H as [H|[]]. vm_compute in H. discriminate.
    + destruct H.
Defined.


(** C7 on [anonymous.json], which has every field but [id]. *)
Lemma C7_missing_id_is_one_error_and_no_identifier_witness :
  holds Sample.parse Sample.mixed "anonymous.json" Sample.anonymous
  /\ get Sample.anonymous "id" = None
  /\ validateFile Sample.parse Sample.mixed "anonymous.json"
     = ([header "anonymous.json";
         failLine ("Required field " +++ quoted "id"
                   +++ " is missing or not a non-empty string")],
        Normal Sample.failed)
  /\ checkId "anonymous.json" Sample.anonymous start
     = pushError start ("Required field " +++ quoted "id"
                        +++ " is missing or not a non-empty string").
Proof.
  assert (Hholds : holds Sample.parse Sample.mixed "anonymous.json" Sample.anonymous).
  { exists (Sample.stringify Sample.anonymous). split; vm_compute; reflexivity. }
  split; [exact Hholds|]. split; [vm_compute; reflexivity|].
  split; [vm_compute; reflexivity|].
  exact (proj1 (C7_missing_id_is_one_error_and_no_identifier Sample.parse Sample.mixed
                  "anonymous.json" Sample.anonymous Hholds eq_refl eq_refl)).
Defined.

(** C7 as the specification states it fails on a filename that breaks the
    convention: every field but [id] passes, and the file has two
    errors. *)
Lemma C7_one_error_total_counterexample :
  get Sample.anonymous "id" = None
  /\ otherFieldsPass Sample.anonymous = true
  /\ validateFile Sample.parse (Sample.single "No_Id.json" Sample.anonymous) "No_Id.json"
     = ([header "No_Id.json";
         failLine ("Filename " +++ quoted "No_Id.json"
                   +++ " must be lowercase, hyphenated (e.g., my-strategy.json)");
         failLine ("Required field " +++ quoted "id"
                   +++ " is missing or not a non-empty string")],
        Normal {| errorCount := 2; warningCount := 0; reportedId := None |}).
Proof. repeat split; vm_compute; reflexivity. Qed.


(** A [category] that is an object with a member named [toString] ends
    [validateFile], and with it the run, by an exception. *)
Example oddCategory_throws :
  validateFile Sample.parse (Sample.single "odd.json" Sample.oddCategory) "odd.json"
  = ([header "odd.json"], Throw "Cannot convert object to primitive value")
  /\ main Sample.parse (Sample.single "odd.json" Sample.oddCategory)
     = ([header "odd.json"], Throw "Cannot convert object to primitive value").
Proof. split; vm_compute; reflexivity. Qed.

(** The naming convention on a few filenames, and their stems. *)
Example filenames :
  map FILENAME_RE_test ["a.json"; "a-b.json"; "a1-2b.json"; "a--b.json"; "-a.json";
                        "a-.json"; ".json"; "A.json"; "a.b.json"; "a.jsonx"]
  = [true; true; true; false; false; false; false; false; false; false]
  /\ map stemOf ["a.json"; ".json"; "a.b.json"] = ["a"; ".json"; "a.b"].
Proof. split; vm_compute; reflexivity. Qed.
(** * Further properties of the script *)

(** ** Strings *)

Lemma append_assoc (a b c : string) : (a +++ b) +++ c = a +++ b +++ c.
Proof. induction a as [|x a IH]; cbn [String.append]; [reflexivity|]. rewrite IH. reflexivity. Qed.

Lemma append_empty_r (a : string) : a +++ EmptyString = a.
Proof. induction a as [|x a IH]; cbn [String.append]; [reflexivity|]. rewrite IH. reflexivity. Qed.

Lemma length_append (a b : string) :
  String.length (a +++ b) = String.length a + String.length b.
Proof. induction a as [|x a IH]; cbn [String.append String.length Nat.add]; [reflexivity|]. rewrite IH. reflexivity. Qed.

Lemma substring_prefix (a b : string) : substring 0 (String.length a) (a +++ b) = a.
Proof.
  induction a as [|x a IH]; cbn [String.append String.length substring].
  - destruct b; reflexivity.
  - rewrite IH. reflexivity.
Qed.

Lemma substring_all (b : string) : substring 0 (String.length b) b = b.
Proof.
  induction b as [|x b IH]; cbn [String.length substring]; [reflexivity|].
  rewrite IH. reflexivity.
Qed.

Lemma substring_suffix (a b : string) :
  substring (String.length a) (String.length b) (a +++ b) = b.
Proof.
  induction a as [|x a IH]; cbn [String.append String.length substring].
  - apply substring_all.
  - exact IH.
Qed.

(** A string is what comes before a position and what comes after. *)
Lemma substring_split (s : string) :
  forall k : nat,
    k <= String.length s ->
    s = substring 0 k s +++ substring k (String.length s - k) s.
Proof.
  induction s as [|x s IH]; intros k Hk.
  - cbn [String.length] in Hk. assert (k = 0) by lia. subst k. reflexivity.
  - destruct k as [|k].
    + cbn [substring String.length Nat.sub String.append].
      f_equal. symmetry. apply substring_all.
    + cbn [String.length] in Hk. cbn [substring String.length Nat.sub String.append].
      f_equal. apply IH. lia.
Qed.

Lemma endsWith_append (a suffix : string) : Str.endsWith (a +++ suffix) suffix = true.
Proof.
  unfold Str.endsWith. rewrite length_append.
  replace (String.length a + String.length suffix - String.length suffix)
    with (String.length a) by lia.
  rewrite substring_suffix, String.eqb_refl.
  replace (String.length suffix <=? String.length a + String.length suffix)%nat with true;
    [reflexivity|].
  symmetry. apply Nat.leb_le. lia.
Qed.

Lemma endsWith_split (s suffix : string) :
  Str.endsWith s suffix = true -> exists a, s = a +++ suffix.
Proof.
  unfold Str.endsWith. intros H. apply andb_prop in H. destruct H as [Hle Heq].
  apply Nat.leb_le in Hle. apply String.eqb_eq in Heq.
  set (k := String.length s - String.length suffix).
  assert (Hs : substring k (String.length s - k) s = suffix).
  { transitivity (substring (String.length s - String.length suffix) (String.length suffix) s); [|exact Heq]. unfold k. f_equal. lia. }
  exists (substring 0 k s). rewrite <- Hs.
  apply substring_split. unfold k. lia.
Qed.

(** ** The naming convention *)

Lemma isSegment_split (s : string) :
  isSegment s = true <-> s <> EmptyString /\ allChars lowerAlnum s = true.
Proof.
  unfold isSegment. rewrite andb_true_iff, negb_true_iff, String.eqb_neq. reflexivity.
Qed.

(** What the automaton accepts from each of its two states. *)
Lemma matchSegments_language (s : string) :
  forall inSegment : bool,
    matchSegments s inSegment = true <->
    exists tail rest,
      allChars lowerAlnum tail = true
      /\ (inSegment = false -> tail <> EmptyString)
      /\ Forall (fun segment => isSegment segment = true) rest
      /\ s = tail +++ hyphenated rest +++ ".json".
Proof.
  induction s as [|c r IH]; intros inSegment.
  - split; [discriminate|].
    intros (tail & rest & _ & _ & _ & Heq).
    apply (f_equal String.length) in Heq.
    rewrite !length_append in Heq. cbn [String.length] in Heq. lia.
  - cbn [matchSegments]. split.
    + destruct (lowerAlnum c) eqn:Hc.
      * intros H. apply IH in H. destruct H as (tail & rest & Ha & _ & Hrest & ->).
        exists (String c tail), rest. cbn [allChars]. rewrite Hc, Ha.
        repeat split; [discriminate|exact Hrest].
      * destruct inSegment; [|discriminate].
        destruct (Ascii.eqb c "-") eqn:Hd.
        -- apply Ascii.eqb_eq in Hd. subst c. intros H. apply IH in H.
           destruct H as (tail & rest & Ha & Hne & Hrest & ->).
           exists EmptyString, (tail :: rest). repeat split.
           ++ discriminate.
           ++ constructor; [|exact Hrest].
              apply isSegment_split. split; [apply Hne; reflexivity|exact Ha].
           ++ cbn [hyphenated String.append]. rewrite append_assoc. reflexivity.
        -- intros H. apply String.eqb_eq in H. exists EmptyString, [].
           repeat split; [discriminate|constructor|exact H].
    + intros (tail & rest & Ha & Hne & Hrest & Heq).
      destruct tail as [|x tail].
      * destruct inSegment; [|exfalso; apply Hne; reflexivity].
        destruct rest as [|segment rest].
        -- cbn [hyphenated String.append] in Heq. injection Heq as -> ->. reflexivity.
        -- cbn [hyphenated String.append] in Heq. injection Heq as -> ->.
           inversion Hrest as [|? ? Hseg Hrest']; subst.
           apply isSegment_split in Hseg. destruct Hseg as [Hne' Ha'].
           cbn [negb]. change (lowerAlnum "-") with false. cbv iota.
           change (Ascii.eqb "-" "-") with true. cbv iota.
           apply IH. exists segment, rest.
           repeat split; [exact Ha'|intros _; exact Hne'|exact Hrest'|].
           apply append_assoc.
      * cbn [String.append] in Heq. injection Heq as -> ->.
        cbn [allChars] in Ha. apply andb_prop in Ha. destruct Ha as [Hx Ha].
        rewrite Hx. apply IH. exists tail, rest.
        repeat split; [exact Ha|discriminate|exact Hrest].
Qed.

(** X1: [FILENAME_RE] accepts exactly the names made of a segment of
    lowercase letters and digits, any number of further such segments each
    after one hyphen, and the extension [.json]. *)
Theorem X1_filename_convention_language (filename : string) :
  FILENAME_RE_test filename = true <-> conventional filename.
Proof.
  unfold FILENAME_RE_test, conventional. rewrite matchSegments_language. split.
  - intros (tail & rest & Ha & Hne & Hrest & ->). exists tail, rest.
    repeat split; [|exact Hrest].
    apply isSegment_split. split; [apply Hne; reflexivity|exact Ha].
  - intros (first & rest & Hfirst & Hrest & ->).
    apply isSegment_split in Hfirst. destruct Hfirst as [Hne Ha].
    exists first, rest. repeat split; [exact Ha|intros _; exact Hne|exact Hrest].
Qed.

(** ** The stem of a filename *)

Lemma lastDot_none (s : string) :
  allChars (fun c => negb (Ascii.eqb c ".")) s = true ->
  forall i found, Str.lastDot s i found = found.
Proof.
  induction s as [|c s IH]; intros H i found; [reflexivity|].
  cbn [allChars] in H. apply andb_prop in H. destruct H as [Hc Hs].
  cbn [Str.lastDot]. apply negb_true_iff in Hc. rewrite Hc. apply IH, Hs.
Qed.

Lemma lastDot_append (a b : string) :
  allChars (fun c => negb (Ascii.eqb c ".")) b = true ->
  forall i found, Str.lastDot (a +++ String "." b) i found = Some (i + String.length a).
Proof.
  intros Hb. induction a as [|x a IH]; intros i found.
  - cbn [String.append Str.lastDot String.length].
    change (Ascii.eqb "." ".") with true. cbv iota.
    rewrite (lastDot_none b Hb), Nat.add_0_r. reflexivity.
  - cbn [String.append Str.lastDot String.length]. rewrite IH. f_equal. lia.
Qed.

(** Lines 110: the stem of a name that has something before [.json]. *)
Lemma stemOf_json (stem : string) :
  stem <> EmptyString -> stemOf (stem +++ ".json") = stem.
Proof.
  intros Hne.
  assert (Hlen : String.length (stem +++ ".json") = String.length stem + 5).
  { rewrite length_append. reflexivity. }
  assert (Hpos : 0 < String.length stem).
  { destruct stem; [contradiction|cbn [String.length]; lia]. }
  assert (Hext : extname (stem +++ ".json") = ".json").
  { unfold extname.
    rewrite (lastDot_append stem "json" eq_refl 0 None). cbn [Nat.add].
    destruct (String.length stem) as [|n] eqn:E; [lia|].
    assert (Hdots : (stem +++ ".json" =? "..") = false).
    { apply String.eqb_neq. intros Heq. apply (f_equal String.length) in Heq.
      rewrite Hlen in Heq. cbn [String.length] in Heq. lia. }
    rewrite Hdots. unfold Str.sliceFrom. rewrite Hlen, <- E.
    replace (String.length stem + 5 - String.length stem) with (String.length ".json")
      by (cbn [String.length]; lia).
    apply substring_suffix. }
  unfold stemOf. rewrite Hext. unfold basename.
  replace ((0 <? String.length ".json")%nat
           && (String.length ".json" <=? String.length (stem +++ ".json"))%nat)
    with true.
  - assert (Hsame : (".json" =? stem +++ ".json") = false).
    { apply String.eqb_neq. intros Heq. apply (f_equal String.length) in Heq.
      rewrite Hlen in Heq. cbn [String.length] in Heq. lia. }
    rewrite Hsame, endsWith_append, Hlen.
    replace (String.length stem + 5 - String.length ".json") with (String.length stem)
      by (cbn [String.length]; lia).
    apply substring_prefix.
  - symmetry. apply andb_true_iff. split; [reflexivity|].
    apply Nat.leb_le. rewrite Hlen. cbn [String.length]. lia.
Qed.

(** X2: for a directory entry, a name without separator, that ends with
    [.json], the stem that [validateFile] compares with [id] is the name
    without its [.json]; the entry named [.json] alone is its own stem. *)
Theorem X2_stem_of_a_discovered_file (filename : string) :
  allChars (fun c => negb (Ascii.eqb c "/")) filename = true ->
  Str.endsWith filename ".json" = true ->
  (filename = ".json" /\ stemOf filename = ".json")
  \/ (exists stem,
         stem <> EmptyString
         /\ filename = stem +++ ".json"
         /\ stemOf filename = stem).
Proof.
  intros _ H. apply endsWith_split in H. destruct H as [stem ->].
  destruct stem as [|c stem].
  - left. split; reflexivity.
  - right. exists (String c stem). split; [discriminate|]. split; [reflexivity|].
    apply stemOf_json. discriminate.
Qed.

(** X3: in a valid, fully populated document the identifier itself
    follows the convention of the filenames: it is the filename without
    [.json], lowercase segments joined by single hyphens. *)
Theorem X3_conformant_identifier_is_hyphenated (filename : string) (parsed : JSON) :
  conformant filename parsed = true ->
  exists first rest,
    isSegment first = true
    /\ Forall (fun segment => isSegment segment = true) rest
    /\ filename = first +++ hyphenated rest +++ ".json"
    /\ idOf parsed = Some (first +++ hyphenated rest).
Proof.
  intros Hc.
  assert (Hname : FILENAME_RE_test filename = true).
  { unfold conformant in Hc.
    repeat (apply andb_prop in Hc; destruct Hc as [Hc _]). exact Hc. }
  unfold FILENAME_RE_test in Hname. apply matchSegments_language in Hname.
  destruct Hname as (first & rest & Hchars & Hne & Hrest & ->).
  specialize (Hne eq_refl).
  exists first, rest. split; [apply isSegment_split; split; assumption|].
  split; [exact Hrest|]. split; [reflexivity|].
  destruct (conformant_locals _ _ Hc) as (_ & _ & -> & _).
  f_equal. rewrite <- append_assoc. apply stemOf_json.
  destruct first; [contradiction|discriminate].
Qed.

(** ** The order of the run *)

Lemma leb_cons (a b : ascii) (s t : string) :
  (String a s <=? String b t)%string
  = match Ascii.compare a b with
    | Eq => (s <=? t)%string
    | Lt => true
    | Gt => false
    end.
Proof. unfold String.leb. cbn [String.compare]. destruct (Ascii.compare a b); reflexivity. Qed.

Lemma leb_refl (s : string) : precedes s s.
Proof. unfold precedes. destruct (String.leb_total s s); assumption. Qed.

Lemma leb_trans (s1 : string) :
  forall s2 s3, precedes s1 s2 -> precedes s2 s3 -> precedes s1 s3.
Proof.
  unfold precedes.
  induction s1 as [|a s IH]; intros [|b t] [|c u]; try reflexivity; try discriminate.
  rewrite !leb_cons. unfold Ascii.compare.
  destruct (N.compare_spec (N_of_ascii a) (N_of_ascii b));
    destruct (N.compare_spec (N_of_ascii b) (N_of_ascii c));
    destruct (N.compare_spec (N_of_ascii a) (N_of_ascii c));
    try discriminate; try reflexivity; try lia.
  apply IH.
Qed.

Lemma insertSorted_Permutation (x : string) (l : list string) :
  Permutation (insertSorted x l) (x :: l).
Proof.
  induction l as [|y rest IH]; cbn [insertSorted]; [reflexivity|].
  destruct (x <=? y)%string; [reflexivity|].
  rewrite IH. apply perm_swap.
Qed.

Lemma sort_Permutation (l : list string) : Permutation (sort l) l.
Proof.
  induction l as [|x rest IH]; cbn [sort]; [constructor|].
  rewrite insertSorted_Permutation, IH. reflexivity.
Qed.

Lemma insertSorted_Sorted (x : string) (l : list string) :
  Sorted precedes l -> Sorted precedes (insertSorted x l).
Proof.
  induction l as [|y rest IH]; cbn [insertSorted]; intros H.
  - repeat constructor.
  - destruct (x <=? y)%string eqn:E.
    + constructor; [exact H|]. constructor. exact E.
    + inversion H as [|? ? Hrest Hhd]; subst.
      constructor; [apply IH, Hrest|].
      assert (Hyx : precedes y x).
      { destruct (String.leb_total x y) as [Hxy|Hyx]; [congruence|exact Hyx]. }
      destruct rest as [|z rest]; cbn [insertSorted].
      * constructor. exact Hyx.
      * destruct (x <=? z)%string; constructor; [exact Hyx|].
        inversion Hhd; assumption.
Qed.

Lemma sort_Sorted (l : list string) : Sorted precedes (sort l).
Proof.
  induction l as [|x rest IH]; cbn [sort]; [constructor|].
  apply insertSorted_Sorted, IH.
Qed.

Lemma sort_StronglySorted (l : list string) : StronglySorted precedes (sort l).
Proof.
  apply Sorted_StronglySorted; [|apply sort_Sorted].
  intros a b c. apply leb_trans.
Qed.

(** Two sorted lists with the same elements are the same list. *)
Lemma sorted_unique (l : list string) :
  forall l',
    StronglySorted precedes l -> StronglySorted precedes l' ->
    Permutation l l' -> l = l'.
Proof.
  induction l as [|x xs IH]; intros [|y ys] Hl Hl' Hp.
  - reflexivity.
  - apply Permutation_nil in Hp. discriminate.
  - symmetry in Hp. apply Permutation_nil in Hp. discriminate.
  - inversion Hl as [|? ? Hxs Hx]; subst. inversion Hl' as [|? ? Hys Hy]; subst.
    assert (Hxy : precedes x y).
    { assert (Hin : In y (x :: xs)).
      { apply (Permutation_in y (Permutation_sym Hp)). left. reflexivity. }
      destruct Hin as [<-|Hin]; [apply leb_refl|].
      rewrite Forall_forall in Hx. apply Hx, Hin. }
    assert (Hyx : precedes y x).
    { assert (Hin : In x (y :: ys)).
      { apply (Permutation_in x Hp). left. reflexivity. }
      destruct Hin as [<-|Hin]; [apply leb_refl|].
      rewrite Forall_forall in Hy. apply Hy, Hin. }
    assert (x = y) by (apply String.leb_antisym; assumption). subst y.
    f_equal. apply IH; [exact Hxs|exact Hys|].
    apply (Permutation_cons_inv Hp).
Qed.

Lemma filter_Permutation {X : Type} (f : X -> bool) (l l' : list X) :
  Permutation l l' -> Permutation (filter f l) (filter f l').
Proof.
  induction 1 as [|x l l' _ IH|x y l|l l' l'' _ IH1 _ IH2]; cbn [filter].
  - constructor.
  - destruct (f x); [constructor|]; exact IH.
  - destruct (f x); destruct (f y); try reflexivity. apply perm_swap.
  - rewrite IH1. exact IH2.
Qed.


Lemma validateFile_ext (JSON_parse : string -> result JSON) (fs fs' : FileSystem)
    (f : string) :
  readFile fs f = readFile fs' f ->
  validateFile JSON_parse fs f = validateFile JSON_parse fs' f.
Proof. intros H. unfold validateFile, readAndParse. rewrite H. reflexivity. Qed.

Lemma filesLoop_ext (JSON_parse : string -> result JSON) (fs fs' : FileSystem)
    (files : list string) :
  (forall f, readFile fs f = readFile fs' f) ->
  forall st, filesLoop JSON_parse fs files st = filesLoop JSON_parse fs' files st.
Proof.
  intros H. induction files as [|f rest IH]; intros st; [reflexivity|].
  cbn [filesLoop]. rewrite (validateFile_ext JSON_parse fs fs' f (H f)).
  unfold bind. destruct (validateFile JSON_parse fs' f) as [out [r|e|c]]; try reflexivity.
  rewrite IH. reflexivity.
Qed.

(** X5: the order in which [readdir] lists the entries does not matter:
    two listings of the same entries give the same files in the same
    order, and two directories with such listings and the same file
    contents give the same run, line for line, with the same end. *)
Theorem X5_discovery_ignores_listing_order (entries entries' : list string) :
  Permutation entries entries' ->
  discovered entries = discovered entries'
  /\ (forall JSON_parse fs fs',
         readdir fs = Ok entries ->
         readdir fs' = Ok entries' ->
         (forall f, readFile fs f = readFile fs' f) ->
         main JSON_parse fs = main JSON_parse fs').
Proof.
  intros Hp.
  assert (E : discovered entries = discovered entries').
  { unfold discovered.
    apply sorted_unique; try apply sort_StronglySorted.
    rewrite !sort_Permutation. apply filter_Permutation, Hp. }
  split; [exact E|].
  intros JSON_parse fs fs' Hdir Hdir' Hfiles. unfold main. rewrite Hdir, Hdir'.
  fold (discovered entries). fold (discovered entries'). rewrite <- E.
  rewrite (filesLoop_ext JSON_parse fs fs' _ Hfiles). reflexivity.
Qed.

(** ** The section of a file *)

Lemma printed_ok (es ws : list string) :
  In (Stdout "  ok") (printed es ws) <-> es = [] /\ ws = [].
Proof.
  assert (Hlines : ~ In (Stdout "  ok") (map failLine es ++ map warnLine ws)).
  { intros H. apply in_app_or in H.
    destruct H as [H|H]; apply in_map_iff in H; destruct H as [msg [H _]];
      discriminate H. }
  unfold printed. destruct es as [|e es]; [destruct ws as [|w ws]|].
  - split; [intros _; split; reflexivity|intros _; left; reflexivity].
  - split; [intros H; contradiction (Hlines H)|intros [_ H]; discriminate].
  - split; [intros H; contradiction (Hlines H)|intros [H _]; discriminate].
Qed.

Lemma printed_length (es ws : list string) :
  List.length (printed es ws) = Nat.max 1 (List.length es + List.length ws).
Proof.
  unfold printed. destruct es as [|e es]; [destruct ws as [|w ws]|].
  - reflexivity.
  - rewrite length_app, !length_map. cbn [List.length]. lia.
  - rewrite length_app, !length_map. cbn [List.length]. lia.
Qed.

Lemma header_not_ok (filename : string) : header filename <> Stdout "  ok".
Proof. intros H. discriminate H. Qed.

(** X6: the section of a file that is validated to the end is its header
    followed by the single [ok] exactly when the report has neither error
    nor warning, and otherwise by one line for each error and each
    warning it counts. *)
Theorem X6_ok_exactly_for_a_clean_report (JSON_parse : string -> result JSON)
    (fs : FileSystem) (filename : string) (r : Report) :
  validated JSON_parse fs filename r ->
  (In (Stdout "  ok") (output (validateFile JSON_parse fs filename))
   <-> errorCount r = 0 /\ warningCount r = 0)
  /\ List.length (output (validateFile JSON_parse fs filename))
     = 1 + Nat.max 1 (errorCount r + warningCount r).
Proof.
  unfold validated. intros Hval.
  destruct (validateFile_cases JSON_parse fs filename) as [(es & ws & i & E)|E];
    rewrite E in Hval |- *; [|discriminate].
  unfold completes, snd in Hval. injection Hval as <-.
  cbn [output fst errorCount warningCount]. split.
  - split.
    + intros [H|H]; [contradiction (header_not_ok filename H)|].
      apply printed_ok in H. destruct H as [-> ->]. split; reflexivity.
    + intros [He Hw]. right. apply printed_ok.
      destruct es; [|discriminate]. destruct ws; [|discriminate]. split; reflexivity.
  - cbn [List.length]. rewrite printed_length. reflexivity.
Qed.

(** ** The summary and the exit status *)

Lemma tally_passedFiles (reports : list (string * Report)) :
  forall st : Totals,
    passedFiles (tally st reports)
    = passedFiles st + List.length (filter (fun fr => passes (snd fr)) reports).
Proof.
  induction reports as [|fr rest IH]; intros st; [cbn; lia|].
  rewrite tally_cons, IH. unfold accumulate, passes. cbn [passedFiles filter].
  destruct (errorCount (snd fr) =? 0)%nat; cbn [List.length]; lia.
Qed.

Lemma combine_passes (JSON_parse : string -> result JSON) (fs : FileSystem)
    (files : list string) (rs : list Report) :
  Forall2 (validated JSON_parse fs) files rs ->
  List.length (filter (fun fr => passes (snd fr)) (combine files rs))
  = List.length (filter passes rs)
  /\ List.length files = List.length rs.
Proof.
  induction 1 as [|f r files rs _ _ [IH1 IH2]]; [split; reflexivity|].
  cbn [combine filter snd List.length]. split; [|lia].
  destruct (passes r); cbn [List.length]; lia.
Qed.

Lemma filter_partition {X : Type} (f : X -> bool) (l : list X) :
  List.length (filter f l) + List.length (filter (fun x => negb (f x)) l) = List.length l.
Proof.
  induction l as [|x l IH]; [reflexivity|].
  cbn [filter]. destruct (f x); cbn [negb List.length]; lia.
Qed.

(** X7: the last line of a run that validates every file is the summary:
    the number of files without error, the number of files with an error,
    and the sum of the warnings of all files.  The two numbers of files
    add up to the number of discovered files. *)
Theorem X7_summary_counts_files_and_warnings (JSON_parse : string -> result JSON)
    (fs : FileSystem) (entries : list string) (rs : list Report) :
  readdir fs = Ok entries ->
  discovered entries <> [] ->
  Forall2 (validated JSON_parse fs) (discovered entries) rs ->
  let passed := List.length (filter passes rs) in
  let failed := List.length (filter (fun r => negb (passes r)) rs) in
  passed + failed = List.length (discovered entries)
  /\ exists before,
      output (main JSON_parse fs)
      = before
        ++ [Stdout (Str.LF +++ "Results: " +++ Str.of_nat passed +++ " passed, "
                    +++ Str.of_nat failed +++ " failed, "
                    +++ Str.of_nat (list_sum (map warningCount rs)) +++ " warnings")].
Proof.
  intros Hdir Hne Hall passed failed.
  destruct (combine_passes _ _ _ _ Hall) as [Hp Hlen].
  assert (Hsum : passed + failed = List.length (discovered entries)).
  { unfold passed, failed. rewrite filter_partition. symmetry. exact Hlen. }
  split; [exact Hsum|].
  rewrite (main_run JSON_parse fs entries rs Hdir Hne Hall). cbn [output fst].
  eexists. rewrite app_assoc. f_equal. unfold summaryLine.
  rewrite tally_passedFiles, tally_totalWarnings, Hp.
  rewrite (combine_warningCount _ _ _ _ Hall). cbn [zero passedFiles totalWarnings Nat.add].
  fold passed. replace (List.length (discovered entries) - passed) with failed by lia.
  reflexivity.
Qed.

Lemma list_sum_zero (l : list nat) : list_sum l = 0 <-> Forall (fun n => n = 0) l.
Proof.
  induction l as [|n l IH]; [split; [constructor|reflexivity]|].
  rewrite list_sum_cons. split.
  - intros H. constructor; [lia|]. apply IH. lia.
  - intros H. inversion H; subst. rewrite (proj2 IH); [reflexivity|assumption].
Qed.

Lemma filter_nil_iff {X : Type} (f : X -> bool) (l : list X) :
  filter f l = [] <-> forall x, In x l -> f x = false.
Proof.
  split; [|apply filter_none].
  intros H x Hin. destruct (f x) eqn:E; [|reflexivity].
  assert (Hx : In x (filter f l)) by (apply filter_In; split; assumption).
  rewrite H in Hx. contradiction.
Qed.

(** X8: a run that validates every file exits with status 0 exactly when
    no file has an error and no identifier is declared by two files. *)
Theorem X8_status_zero_means_all_passed_and_unique (JSON_parse : string -> result JSON)
    (fs : FileSystem) (entries : list string) (rs : list Report) :
  readdir fs = Ok entries ->
  discovered entries <> [] ->
  Forall2 (validated JSON_parse fs) (discovered entries) rs ->
  completes (main JSON_parse fs) = Exit 0
  <-> (Forall (fun r => errorCount r = 0) rs
       /\ forall identifier,
           List.length (filesOf identifier (combine (discovered entries) rs)) <= 1).
Proof.
  intros Hdir Hne Hall.
  rewrite (main_run JSON_parse fs entries rs Hdir Hne Hall). cbn [completes snd].
  rewrite tally_totalErrors, (combine_errorCount _ _ _ _ Hall).
  cbn [zero totalErrors Nat.add].
  set (reports := combine (discovered entries) rs).
  set (m := idMap (tally zero reports)).
  assert (Hunique : filter duplicated m = []
                    <-> forall identifier, List.length (filesOf identifier reports) <= 1).
  { rewrite filter_nil_iff. split.
    - intros H k. destruct (filesOf k reports) as [|f l] eqn:E; [cbn; lia|].
      assert (Hin : In (k, filesOf k reports) m).
      { apply tally_entries. split; [reflexivity|]. rewrite E. discriminate. }
      apply H in Hin. unfold duplicated in Hin. cbn [snd] in Hin.
      apply Nat.ltb_ge in Hin. rewrite E in Hin. exact Hin.
    - intros H [k v] Hin. apply tally_entries in Hin. destruct Hin as [-> _].
      unfold duplicated. cbn [snd]. apply Nat.ltb_ge, H. }
  assert (Hzero : list_sum (map errorCount rs) = 0 <-> Forall (fun r => errorCount r = 0) rs).
  { rewrite list_sum_zero, Forall_map. reflexivity. }
  rewrite <- Hunique, <- Hzero.
  destruct (0 <? list_sum (map errorCount rs) + List.length (filter duplicated m))%nat eqn:E.
  - apply Nat.ltb_lt in E. split; [discriminate|].
    intros [H1 H2]. rewrite H1, H2 in E. cbn in E. lia.
  - apply Nat.ltb_ge in E. split; [intros _|reflexivity].
    split; [lia|]. destruct (filter duplicated m); [reflexivity|cbn in E; lia].
Qed.

(** ** Exceptions *)

Lemma readAndParse_holds (JSON_parse : string -> result JSON) (fs : FileSystem)
    (filename : string) (parsed : JSON) :
  readAndParse JSON_parse fs filename = Ok parsed <-> holds JSON_parse fs filename parsed.
Proof.
  unfold readAndParse, holds. split.
  - destruct (readFile fs filename) as [content|message]; [|discriminate].
    intros H. exists content. split; [reflexivity|exact H].
  - intros [content [-> H]]. exact H.
Qed.

Lemma ToString_scalar (v : JSON) :
  ToString v = None -> isRecord v = true \/ Array_isArray (Some v) = true.
Proof.
  destruct v as [|b|n|s|elements|members]; cbn [ToString isRecord Array_isArray];
    try discriminate; try (destruct b; discriminate); auto.
Qed.

(** X9: [validateFile] returns unless the file holds a record whose
    [category] is present, is none of the four categories, and has no
    string conversion; such a value is an object or an array, never
    [null], a boolean, a number or a string.  In that case it writes the
    header and raises the [TypeError], and nothing is reported for the
    file. *)
Theorem X9_validateFile_returns_unless_category_fails
    (JSON_parse : string -> result JSON) (fs : FileSystem) (filename : string) :
  ((exists r, validated JSON_parse fs filename r)
   <-> (forall parsed,
           holds JSON_parse fs filename parsed ->
           isRecord parsed = true ->
           categoryConverts parsed = true))
  /\ (forall parsed,
         holds JSON_parse fs filename parsed ->
         isRecord parsed = true ->
         categoryConverts parsed = false ->
         validateFile JSON_parse fs filename
         = ([header filename], Throw "Cannot convert object to primitive value"))
  /\ (forall parsed,
         categoryConverts parsed = false ->
         exists v,
           get parsed "category" = Some v
           /\ includes VALID_CATEGORIES (Some v) = false
           /\ ToString v = None
           /\ (isRecord v = true \/ Array_isArray (Some v) = true)).
Proof.
  split; [|split].
  - split.
    + intros [r Hval] parsed Hholds Hrec.
      apply (validated_record _ _ _ _ _ Hholds Hrec Hval).
    + intros H. unfold validated.
      destruct (readAndParse JSON_parse fs filename) as [parsed|message] eqn:E.
      * destruct (isRecord parsed) eqn:Hrec.
        -- apply converts_validated with (parsed := parsed);
             [apply readAndParse_holds, E|exact Hrec|].
           apply H; [apply readAndParse_holds, E|exact Hrec].
        -- eexists. rewrite (validateFile_shape _ _ _ _ E Hrec). reflexivity.
      * eexists. rewrite (validateFile_caught _ _ _ _ E). reflexivity.
  - intros parsed Hholds Hrec Hcat.
    apply (validateFile_throws _ _ _ parsed); [apply readAndParse_holds, Hholds| |];
      assumption.
  - intros parsed Hcat. unfold categoryConverts in Hcat.
    apply orb_false_iff in Hcat. destruct Hcat as [Hcat Hstr].
    apply orb_false_iff in Hcat. destruct Hcat as [Hhas Hin].
    apply negb_false_iff in Hhas. unfold has in Hhas.
    destruct (get parsed "category") as [v|]; [|discriminate].
    exists v. cbn [ToString_value] in Hstr.
    destruct (ToString v) eqn:E; [discriminate|].
    repeat split; [exact Hin|apply ToString_scalar, E].
Qed.

(** ** A run that is cut short *)

Lemma filesLoop_throws (JSON_parse : string -> result JSON) (fs : FileSystem)
    (before : list string) (rs : list Report) (f : string) (after : list string)
    (out : list call) (message : string) :
  Forall2 (validated JSON_parse fs) before rs ->
  validateFile JSON_parse fs f = (out, Throw message) ->
  forall st,
    filesLoop JSON_parse fs (before ++ f :: after) st
    = (flat_map (fun g => output (validateFile JSON_parse fs g)) before ++ out,
       Throw message).
Proof.
  intros Hall Hf. induction Hall as [|g r before rs Hg _ IH]; intros st.
  - cbn [app filesLoop flat_map]. rewrite Hf. reflexivity.
  - cbn [app filesLoop flat_map].
    rewrite (bind_normal _ _ (output (validateFile JSON_parse fs g)) r).
    + rewrite IH, <- app_assoc. reflexivity.
    + rewrite (io_eta (validateFile JSON_parse fs g)). unfold validated in Hg.
      rewrite Hg. reflexivity.
Qed.

(** X10: when the validation of a file raises an exception, the run ends
    there with that exception: the sections of the files before it and
    the header of that file are all that is written; no later file is
    validated, and there is no cross-file check, no summary and no exit
    status from the script. *)
Theorem X10_exception_cuts_the_run_short (JSON_parse : string -> result JSON)
    (fs : FileSystem) (entries before : list string) (rs : list Report)
    (f : string) (after : list string) (message : string) :
  readdir fs = Ok entries ->
  discovered entries = before ++ f :: after ->
  Forall2 (validated JSON_parse fs) before rs ->
  completes (validateFile JSON_parse fs f) = Throw message ->
  main JSON_parse fs
  = (flat_map (fun g => output (validateFile JSON_parse fs g)) before ++ [header f],
     Throw message).
Proof.
  intros Hdir Hfiles Hall Hf.
  assert (Hv : validateFile JSON_parse fs f = ([header f], Throw message)).
  { destruct (validateFile_cases JSON_parse fs f) as [(es & ws & i & E)|E];
      rewrite E in Hf |- *; [discriminate|].
    unfold completes, snd in Hf. injection Hf as <-. reflexivity. }
  unfold main. rewrite Hdir. fold (discovered entries). rewrite Hfiles.
  replace (List.length (before ++ f :: after) =? 0)%nat with false
    by (symmetry; apply Nat.eqb_neq; rewrite length_app; cbn [List.length]; lia).
  rewrite bind_ret.
  rewrite (filesLoop_throws _ _ _ _ _ _ _ _ Hall Hv). reflexivity.
Qed.

Lemma filesLoop_cases (JSON_parse : string -> result JSON) (fs : FileSystem)
    (files : list string) :
  (exists rs, Forall2 (validated JSON_parse fs) files rs)
  \/ (exists before rs f after,
         files = before ++ f :: after
         /\ Forall2 (validated JSON_parse fs) before rs
         /\ validateFile JSON_parse fs f
            = ([header f], Throw "Cannot convert object to primitive value")).
Proof.
  induction files as [|g rest IH].
  - left. exists []. constructor.
  - destruct (validateFile_cases JSON_parse fs g) as [(es & ws & i & E)|E].
    + assert (Hg : validated JSON_parse fs g
                     {| errorCount := List.length es;
                        warningCount := List.length ws;
                        reportedId := i |}).
      { unfold validated. rewrite E. reflexivity. }
      destruct IH as [[rs Hall]|(before & rs & f & after & -> & Hall & Hf)].
      * left. eexists. constructor; [exact Hg|exact Hall].
      * right. exists (g :: before). eexists. exists f, after.
        split; [reflexivity|]. split; [constructor; [exact Hg|exact Hall]|exact Hf].
    + right. exists [], [], g, rest. split; [reflexivity|]. split; [constructor|exact E].
Qed.

(** An exception of [validateFile] is the [TypeError] of a record it has
    read and parsed. *)
Lemma validateFile_throw_inv (JSON_parse : string -> result JSON) (fs : FileSystem)
    (filename message : string) :
  completes (validateFile JSON_parse fs filename) = Throw message ->
  message = "Cannot convert object to primitive value"
  /\ exists parsed,
       holds JSON_parse fs filename parsed
       /\ isRecord parsed = true
       /\ categoryConverts parsed = false.
Proof.
  intros Hthrow.
  destruct (readAndParse JSON_parse fs filename) as [parsed|failure] eqn:E.
  - destruct (isRecord parsed) eqn:Hrec.
    + destruct (categoryConverts parsed) eqn:Hcat.
      * rewrite (validateFile_record _ _ _ _ E Hrec Hcat) in Hthrow. discriminate.
      * rewrite (validateFile_throws _ _ _ _ E Hrec Hcat) in Hthrow.
        unfold completes, snd in Hthrow. injection Hthrow as <-.
        split; [reflexivity|]. exists parsed.
        split; [apply readAndParse_holds, E|]. split; [exact Hrec|exact Hcat].
    + rewrite (validateFile_shape _ _ _ _ E Hrec) in Hthrow. discriminate.
  - rewrite (validateFile_caught _ _ _ _ E) in Hthrow. discriminate.
Qed.

(** X11: [main] never returns: it ends by [process.exit] with status 0 or
    1, or by an exception nobody catches.  The exception is the failure
    of [readdir], with its message, or the [TypeError] of a discovered
    file that was read and parsed to a record whose [category] cannot be
    written.  A file that cannot be read or parsed never is the cause:
    the failure is caught and reported as an error of the file, and a run
    in which no file holds such a record ends by [process.exit], however
    many files fail to be read or parsed. *)
Theorem X11_main_exits_or_throws (JSON_parse : string -> result JSON) (fs : FileSystem) :
  (forall u, completes (main JSON_parse fs) <> Normal u)
  /\ (forall code, completes (main JSON_parse fs) = Exit code -> code = 0 \/ code = 1)
  /\ (forall message,
         completes (main JSON_parse fs) = Throw message
         <-> (readdir fs = Err message
              \/ (message = "Cannot convert object to primitive value"
                  /\ exists entries f parsed,
                       readdir fs = Ok entries
                       /\ In f (discovered entries)
                       /\ holds JSON_parse fs f parsed
                       /\ isRecord parsed = true
                       /\ categoryConverts parsed = false)))
  /\ (forall f failure,
         (readFile fs f = Err failure
          \/ exists content, readFile fs f = Ok content /\ JSON_parse content = Err failure) ->
         exists r,
           validated JSON_parse fs f r
           /\ reportedId r = None
           /\ 0 < errorCount r
           /\ In (failLine ("Invalid JSON: " +++ failure))
                 (output (validateFile JSON_parse fs f)))
  /\ (forall entries,
         readdir fs = Ok entries ->
         (forall f parsed,
             In f (discovered entries) ->
             holds JSON_parse fs f parsed ->
             isRecord parsed = true ->
             categoryConverts parsed = true) ->
         exists code, completes (main JSON_parse fs) = Exit code).
Proof.
  assert (Hexits : (forall u, completes (main JSON_parse fs) <> Normal u)
                   /\ (forall code, completes (main JSON_parse fs) = Exit code ->
                                    code = 0 \/ code = 1)
                   /\ (forall message,
                          completes (main JSON_parse fs) = Throw message
                          <-> (readdir fs = Err message
                               \/ exists entries f,
                                    readdir fs = Ok entries
                                    /\ In f (discovered entries)
                                    /\ completes (validateFile JSON_parse fs f)
                                       = Throw message))).
  { destruct (readdir fs) as [entries|failure] eqn:Hdir.
    - destruct (filesLoop_cases JSON_parse fs (discovered entries))
        as [[rs Hall]|(before & rs & f & after & Hfiles & Hall & Hf)].
      + assert (Hnothrow : forall g message,
                   In g (discovered entries) ->
                   completes (validateFile JSON_parse fs g) <> Throw message).
        { intros g message Hin Hthrow.
          destruct (combine_In_file _ _ _ _ Hall g Hin) as [r Hr].
          apply (validated_combine _ _ _ _ Hall) in Hr. unfold validated in Hr.
          rewrite Hr in Hthrow. discriminate. }
        destruct (discovered entries) as [|f files] eqn:E.
        * rewrite (main_nothing JSON_parse fs entries Hdir E). cbn [completes snd].
          split; [discriminate|]. split; [intros code H; injection H as <-; auto|].
          intros message. split; [discriminate|].
          intros [H|(entries' & g & H & Hin & _)]; [discriminate|].
          injection H as <-. rewrite E in Hin. contradiction.
        * assert (Hne : discovered entries <> []) by (rewrite E; discriminate).
          rewrite <- E in Hall.
          rewrite (main_run JSON_parse fs entries rs Hdir Hne Hall). cbn [completes snd].
          split; [discriminate|]. split.
          -- intros code H. injection H as <-.
             destruct (0 <? _)%nat; auto.
          -- intros message. split; [discriminate|].
             intros [H|(entries' & g & H & Hin & Hthrow)]; [discriminate|].
             injection H as <-. rewrite <- E in Hnothrow.
             contradiction (Hnothrow g message Hin Hthrow).
      + assert (Hthrow : completes (validateFile JSON_parse fs f)
                         = Throw "Cannot convert object to primitive value").
        { rewrite Hf. reflexivity. }
        assert (Hmain : completes (main JSON_parse fs)
                        = Throw "Cannot convert object to primitive value").
        { unfold main. rewrite Hdir. fold (discovered entries). rewrite Hfiles.
          replace (List.length (before ++ f :: after) =? 0)%nat with false
            by (symmetry; apply Nat.eqb_neq; rewrite length_app; cbn [List.length]; lia).
          rewrite bind_ret.
          rewrite (filesLoop_throws _ _ _ _ _ _ _ _ Hall Hf). reflexivity. }
        rewrite Hmain. split; [discriminate|]. split; [discriminate|].
        intros message. split.
        * intros H. injection H as <-. right. exists entries, f.
          split; [reflexivity|]. split; [|exact Hthrow].
          rewrite Hfiles. apply in_or_app. right. left. reflexivity.
        * intros [H|(entries' & g & _ & _ & Hg)]; [discriminate|].
          destruct (validateFile_throw_inv _ _ _ _ Hg) as [-> _]. reflexivity.
    - assert (Hmain : main JSON_parse fs = ([], Throw failure)).
      { unfold main. rewrite Hdir. reflexivity. }
      rewrite Hmain. cbn [completes snd].
      split; [discriminate|]. split; [discriminate|].
      intros message. split.
      + intros H. injection H as <-. left. reflexivity.
      + intros [H|(entries & f & H & _)]; [injection H as <-; reflexivity|discriminate]. }
  destruct Hexits as (Hnormal & Hcode & Hthrows).
  assert (Hcause : forall message,
             completes (main JSON_parse fs) = Throw message
             <-> (readdir fs = Err message
                  \/ (message = "Cannot convert object to primitive value"
                      /\ exists entries f parsed,
                           readdir fs = Ok entries
                           /\ In f (discovered entries)
                           /\ holds JSON_parse fs f parsed
                           /\ isRecord parsed = true
                           /\ categoryConverts parsed = false))).
  { intros message. rewrite Hthrows. split.
    - intros [H|(entries & f & Hdir & Hin & Hf)]; [left; exact H|].
      destruct (validateFile_throw_inv _ _ _ _ Hf) as (-> & parsed & Hholds & Hrec & Hcat).
      right. split; [reflexivity|]. exists entries, f, parsed. repeat split; assumption.
    - intros [H|(-> & entries & f & parsed & Hdir & Hin & Hholds & Hrec & Hcat)];
        [left; exact H|].
      right. exists entries, f. split; [exact Hdir|]. split; [exact Hin|].
      apply readAndParse_holds in Hholds.
      rewrite (validateFile_throws _ _ _ _ Hholds Hrec Hcat). reflexivity. }
  split; [exact Hnormal|]. split; [exact Hcode|]. split; [exact Hcause|]. split.
  - intros f failure Hfail.
    assert (Hrp : readAndParse JSON_parse fs f = Err failure).
    { unfold readAndParse. destruct Hfail as [->|(content & -> & Hparse)];
        [reflexivity|exact Hparse]. }
    pose proof (validateFile_caught _ _ _ _ Hrp) as Hv.
    eexists. split; [unfold validated; rewrite Hv; reflexivity|].
    cbn [reportedId errorCount]. split; [reflexivity|].
    split; [apply Nat.lt_0_succ|].
    rewrite Hv. unfold output, fst. right.
    apply printed_In_error, in_or_app. right. left. reflexivity.
  - intros entries Hdir Hall.
    destruct (completes (main JSON_parse fs)) as [u|message|code] eqn:E.
    + contradiction (Hnormal u eq_refl).
    + destruct (proj1 (Hcause message) eq_refl)
        as [H|(_ & entries' & f & parsed & Hdir' & Hin & Hholds & Hrec & Hcat)].
      * rewrite Hdir in H. discriminate.
      * rewrite Hdir in Hdir'. injection Hdir' as <-.
        rewrite (Hall f parsed Hin Hholds Hrec) in Hcat. discriminate.
    + exists code. reflexivity.
Qed.

(** ** How many diagnostics a record gets *)

Lemma fieldLocals_warnings (filename : string) (parsed : JSON) :
  warnings (merge (checkFilename filename start) (fieldLocals filename parsed))
  = warnings (checkId filename parsed start)
    ++ warnings (checkName parsed start)
    ++ warnings (checkSupplement parsed start)
    ++ warnings (checkDescription parsed start)
    ++ warnings (categoryLocals parsed)
    ++ warnings (checkExamples parsed start)
    ++ warnings (checkUnknown parsed start).
Proof.
  unfold fieldLocals, merge. cbn [warnings].
  rewrite (proj1 (checkFilename_warnings filename)). reflexivity.
Qed.

Lemma isNonEmptyString_inv (v : Value) :
  isNonEmptyString v = true -> exists s, v = Some (JString s) /\ s <> EmptyString.
Proof.
  destruct v as [[| | |s| |]|]; try discriminate. cbn [isNonEmptyString].
  intros H. exists s. split; [reflexivity|].
  intros ->. discriminate.
Qed.

Lemma checkId_counts (filename : string) (parsed : JSON) :
  List.length (errors (checkId filename parsed start))
  = (if isNonEmptyString (get parsed "id") then 0 else 1)
  /\ List.length (warnings (checkId filename parsed start))
     = match get parsed "id" with
       | Some (JString s) =>
           if negb (s =? EmptyString) && negb (s =? stemOf filename) then 1 else 0
       | _ => 0
       end.
Proof.
  destruct (isNonEmptyString (get parsed "id")) eqn:E.
  - destruct (isNonEmptyString_inv _ E) as [s [Hs Hne]].
    rewrite (checkId_present _ _ _ Hs Hne), Hs.
    apply String.eqb_neq in Hne. rewrite Hne. cbn [negb andb].
    destruct (s =? stemOf filename); split; reflexivity.
  - rewrite (checkId_missing _ _ E). split; [reflexivity|].
    destruct (get parsed "id") as [[| | |s| |]|]; try reflexivity.
    cbn [isNonEmptyString] in E. apply negb_false_iff in E. rewrite E. reflexivity.
Qed.

Lemma checkName_counts (parsed : JSON) :
  List.length (errors (checkName parsed start))
  = (if isNonEmptyString (get parsed "name") then 0 else 1)
  /\ warnings (checkName parsed start) = [].
Proof.
  unfold checkName. rewrite required_test.
  destruct (isNonEmptyString (get parsed "name")); split; reflexivity.
Qed.

Lemma checkSupplement_counts (parsed : JSON) :
  List.length (errors (checkSupplement parsed start))
  = (if isString (get parsed "supplement") then 0 else 1)
  /\ warnings (checkSupplement parsed start) = [].
Proof.
  unfold checkSupplement. rewrite typeof_string.
  destruct (isString (get parsed "supplement")); split; reflexivity.
Qed.

Lemma checkDescription_counts (parsed : JSON) :
  List.length (errors (checkDescription parsed start))
  = (if absent (get parsed "description") || isString (get parsed "description")
     then 0 else 1)
  /\ List.length (warnings (checkDescription parsed start))
     = (if absent (get parsed "description") then 1 else 0).
Proof.
  unfold checkDescription. rewrite has_absent, typeof_string.
  destruct (absent (get parsed "description")); [split; reflexivity|].
  destruct (isString (get parsed "description")); split; reflexivity.
Qed.

Lemma categoryLocals_counts (parsed : JSON) :
  categoryConverts parsed = true ->
  List.length (errors (categoryLocals parsed))
  = (if absent (get parsed "category")
        || includes VALID_CATEGORIES (get parsed "category")
     then 0 else 1)
  /\ List.length (warnings (categoryLocals parsed))
     = (if absent (get parsed "category") then 1 else 0).
Proof.
  unfold categoryConverts, categoryLocals, checkCategory. rewrite has_absent.
  destruct (absent (get parsed "category")); [split; reflexivity|].
  destruct (includes VALID_CATEGORIES (get parsed "category")); [split; reflexivity|].
  cbn [negb orb]. destruct (ToString_value (get parsed "category")); [|discriminate].
  split; reflexivity.
Qed.

Lemma checkExamples_counts (parsed : JSON) :
  List.length (errors (checkExamples parsed start))
  = match get parsed "examples" with
    | None => 0
    | Some (JArray examples) => List.length (examplesErrors 0 examples)
    | Some _ => 1
    end
  /\ List.length (warnings (checkExamples parsed start))
     = (if absent (get parsed "examples") then 1 else 0).
Proof.
  destruct (get parsed "examples") as [v|] eqn:E.
  - destruct (Array_isArray (Some v)) eqn:Hv.
    + destruct v as [| | | |examples|]; try discriminate.
      rewrite (checkExamples_array _ _ E). split; reflexivity.
    + rewrite (checkExamples_other _ _ E Hv).
      destruct v; try discriminate; split; reflexivity.
  - rewrite checkExamples_absent by (rewrite E; reflexivity). split; reflexivity.
Qed.

Lemma checkId_id (filename : string) (parsed : JSON) :
  id (checkId filename parsed start)
  = (if isNonEmptyString (get parsed "id") then idOf parsed else None).
Proof.
  destruct (isNonEmptyString (get parsed "id")) eqn:E.
  - destruct (isNonEmptyString_inv _ E) as [s [Hs Hne]].
    rewrite (checkId_present _ _ _ Hs Hne). unfold idOf. rewrite Hs.
    destruct (s =? stemOf filename); reflexivity.
  - rewrite (checkId_missing _ _ E). reflexivity.
Qed.

(** The diagnostics of a record whose [category] can be written. *)
Lemma record_counts (filename : string) (parsed : JSON) :
  categoryConverts parsed = true ->
  let l := merge (checkFilename filename start) (fieldLocals filename parsed) in
  List.length (errors l) = errorsCalledFor filename parsed
  /\ List.length (warnings l) = warningsCalledFor filename parsed.
Proof.
  intros Hcat l. unfold l. split.
  - rewrite fieldLocals_errors, !length_app.
    rewrite (proj1 (checkId_counts filename parsed)), (proj1 (checkName_counts parsed)),
      (proj1 (checkSupplement_counts parsed)), (proj1 (checkDescription_counts parsed)),
      (proj1 (categoryLocals_counts parsed Hcat)), (proj1 (checkExamples_counts parsed)).
    unfold errorsCalledFor, filenameErrors.
    destruct (FILENAME_RE_test filename); cbn [List.length]; lia.
  - rewrite fieldLocals_warnings, !length_app.
    rewrite (proj2 (checkId_counts filename parsed)), (proj2 (checkName_counts parsed)),
      (proj2 (checkSupplement_counts parsed)), (proj2 (checkDescription_counts parsed)),
      (proj2 (categoryLocals_counts parsed Hcat)), (proj2 (checkExamples_counts parsed)),
      checkUnknown_eq.
    cbn [warnings List.length]. rewrite length_map.
    unfold warningsCalledFor. lia.
Qed.

(** X12: for a file that holds a record, [validateFile] returns exactly
    when the [category] of the record can be written in its message, and
    then every check has run and each counts on its own: the number of
    errors is the sum of what the filename, [id], [name], [supplement],
    [description], [category], and [examples] with its elements call for,
    the number of warnings is one for an identifier that differs from the
    stem, one for each absent optional field and one for each unknown
    key, and the identifier is the non-empty string [id].  When the
    [category] cannot be written, the exception leaves [validateFile] at
    that check: the header is the only line, there is no report, and
    neither [examples] nor the keys are checked. *)
Theorem X12_diagnostics_add_up (JSON_parse : string -> result JSON) (fs : FileSystem)
    (filename : string) (parsed : JSON) :
  holds JSON_parse fs filename parsed ->
  isRecord parsed = true ->
  (forall r,
      validated JSON_parse fs filename r
      <-> categoryConverts parsed = true
          /\ r = {| errorCount := errorsCalledFor filename parsed;
                    warningCount := warningsCalledFor filename parsed;
                    reportedId := if isNonEmptyString (get parsed "id")
                                  then idOf parsed else None |})
  /\ (categoryConverts parsed = false ->
      validateFile JSON_parse fs filename
      = ([header filename], Throw "Cannot convert object to primitive value")
      /\ forall r, ~ validated JSON_parse fs filename r).
Proof.
  intros Hholds Hrec. split.
  - intros r. split.
    + intros Hval.
      destruct (validated_record _ _ _ _ _ Hholds Hrec Hval) as (Hcat & _ & ->).
      destruct (record_counts filename parsed Hcat) as [Herrors Hwarnings].
      cbv zeta in Herrors, Hwarnings.
      rewrite Herrors, Hwarnings, checkId_id. split; [exact Hcat|reflexivity].
    + intros [Hcat ->].
      destruct (record_counts filename parsed Hcat) as [Herrors Hwarnings].
      cbv zeta in Herrors, Hwarnings.
      pose proof Hholds as Hrp. apply readAndParse_holds in Hrp.
      unfold validated.
      rewrite (validateFile_record _ _ _ _ Hrp Hrec Hcat). unfold completes, snd.
      rewrite Herrors, Hwarnings, fieldLocals_id, checkId_id. reflexivity.
  - intros Hcat. pose proof Hholds as Hrp. apply readAndParse_holds in Hrp.
    pose proof (validateFile_throws _ _ _ _ Hrp Hrec Hcat) as Hthrow.
    split; [exact Hthrow|].
    intros r Hval. unfold validated in Hval. rewrite Hthrow in Hval. discriminate.
Qed.

(** ** The line of an invalid category *)

Lemma append_inj_length (s s' r r' : string) :
  String.length s = String.length s' -> s +++ r = s' +++ r' -> s = s'.
Proof.
  revert s'. induction s as [|c s IH]; intros [|c' s'] Hlen Heq;
    try discriminate; [reflexivity|].
  cbn [String.append] in Heq. injection Heq as -> Heq.
  cbn [String.length] in Hlen. injection Hlen as Hlen.
  rewrite (IH s' Hlen Heq). reflexivity.
Qed.

Lemma append_inj_r (s s' r : string) : s +++ r = s' +++ r -> s = s'.
Proof.
  intros Heq. apply (append_inj_length s s' r r); [|exact Heq].
  apply (f_equal String.length) in Heq. rewrite !length_append in Heq. lia.
Qed.

Lemma categoryMessage_inj (text text' : string) :
  categoryMessage text = categoryMessage text' -> text = text'.
Proof.
  unfold categoryMessage, quoted, Str.DQ. intros Heq.
  cbn [String.append] in Heq.
  repeat match type of Heq with
         | String _ _ = String _ _ => injection Heq as Heq
         end.
  apply append_inj_r, append_inj_r in Heq. exact Heq.
Qed.

Ltac other_message H :=
  unfold categoryMessage, quoted, Str.DQ, Str.LF, failLine, warnLine, header in H;
  cbn [String.append] in H; discriminate H.

Lemma printed_fail_inv (es ws : list string) (msg : string) :
  In (failLine msg) (printed es ws) -> In msg es.
Proof.
  assert (Hfail : forall l, In (failLine msg) (map failLine l) -> In msg l).
  { intros l H. apply in_map_iff in H. destruct H as [x [Hx Hin]].
    unfold failLine in Hx. injection Hx as Hx.
    cbn [String.append] in Hx.
    repeat match type of Hx with
           | String _ _ = String _ _ => injection Hx as Hx
           end.
    subst x. exact Hin. }
  assert (Hwarn : forall l, ~ In (failLine msg) (map warnLine l)).
  { intros l H. apply in_map_iff in H. destruct H as [x [Hx _]]. other_message Hx. }
  unfold printed. destruct es as [|e es]; destruct ws as [|w ws]; intros H.
  - destruct H as [H|[]]. other_message H.
  - apply in_app_or in H. destruct H as [H|H]; [contradiction|].
    contradiction (Hwarn _ H).
  - apply in_app_or in H. destruct H as [H|H]; [apply Hfail, H|contradiction].
  - apply in_app_or in H. destruct H as [H|H]; [apply Hfail, H|].
    contradiction (Hwarn _ H).
Qed.

Lemma examplesErrors_other (text : string) (examples : list JSON) :
  forall i, ~ In (categoryMessage text) (examplesErrors i examples).
Proof.
  induction examples as [|ex rest IH]; intros i H; [contradiction|].
  rewrite examplesErrors_cons in H. apply in_app_or in H.
  destruct H as [H|H]; [|exact (IH _ H)].
  unfold exampleErrors in H. destruct (isRecord ex).
  - apply in_app_or in H.
    destruct H as [H|H];
      [destruct (isString (get ex "scenario"))|destruct (isString (get ex "commands"))];
      try contradiction; destruct H as [H|[]]; other_message H.
  - destruct H as [H|[]]. other_message H.
Qed.

Lemma category_error_inv (filename : string) (parsed : JSON) (text : string) :
  In (categoryMessage text)
     (errors (merge (checkFilename filename start) (fieldLocals filename parsed))) ->
  In (categoryMessage text) (errors (categoryLocals parsed)).
Proof.
  rewrite fieldLocals_errors. intros H.
  apply in_app_or in H. destruct H as [H|H].
  { unfold filenameErrors in H. destruct (FILENAME_RE_test filename); [contradiction|].
    destruct H as [H|[]]. other_message H. }
  apply in_app_or in H. destruct H as [H|H].
  { destruct (isNonEmptyString (get parsed "id")) eqn:E.
    - destruct (isNonEmptyString_inv _ E) as [s [Hs Hne]].
      rewrite (checkId_present _ _ _ Hs Hne) in H.
      destruct (s =? stemOf filename); contradiction.
    - rewrite (checkId_missing _ _ E) in H. destruct H as [H|[]]. other_message H. }
  apply in_app_or in H. destruct H as [H|H].
  { unfold checkName in H. destruct (negb _ || _); [|contradiction].
    destruct H as [H|[]]. other_message H. }
  apply in_app_or in H. destruct H as [H|H].
  { unfold checkSupplement in H. destruct (negb _); [|contradiction].
    destruct H as [H|[]]. other_message H. }
  apply in_app_or in H. destruct H as [H|H].
  { unfold checkDescription in H. destruct (negb (has _ _)); [contradiction|].
    destruct (negb _); [|contradiction].
    destruct H as [H|[]]. other_message H. }
  apply in_app_or in H. destruct H as [H|H]; [exact H|].
  destruct (get parsed "examples") as [v|] eqn:E.
  - destruct (Array_isArray (Some v)) eqn:Hv.
    + destruct v as [| | | |examples|]; try discriminate.
      rewrite (checkExamples_array _ _ E) in H.
      contradiction (examplesErrors_other _ _ _ H).
    + rewrite (checkExamples_other _ _ E Hv) in H.
      destruct H as [H|[]]. other_message H.
  - rewrite checkExamples_absent in H by (rewrite E; reflexivity). contradiction.
Qed.

Lemma categoryLocals_invalid (parsed v : JSON) (text : string) :
  get parsed "category" = Some v ->
  includes VALID_CATEGORIES (Some v) = false ->
  ToString v = Some text ->
  categoryConverts parsed = true
  /\ categoryLocals parsed = pushError start (categoryMessage text).
Proof.
  intros Hget Hin Htext.
  unfold categoryConverts, categoryLocals, checkCategory.
  rewrite has_absent, Hget, Hin. cbn [absent negb orb ToString_value].
  rewrite Htext. split; reflexivity.
Qed.

(** X14: the section of a file that holds a record carries the line of an
    invalid [category], with the value written [text], exactly when the
    record has a [category] that is none of [general], [pattern],
    [workflow] and [organism] and whose conversion to a string is [text];
    no other check writes that line.  A [category] of another type is
    reported the same way, under its text: [null], a number, a boolean. *)
Theorem X14_category_line (JSON_parse : string -> result JSON) (fs : FileSystem)
    (filename : string) (parsed : JSON) (text : string) :
  holds JSON_parse fs filename parsed ->
  isRecord parsed = true ->
  In (failLine (categoryMessage text)) (output (validateFile JSON_parse fs filename))
  <-> exists v,
        get parsed "category" = Some v
        /\ includes VALID_CATEGORIES (Some v) = false
        /\ ToString v = Some text.
Proof.
  intros Hholds Hrec. pose proof Hholds as Hrp. apply readAndParse_holds in Hrp.
  split.
  - destruct (categoryConverts parsed) eqn:Hcat.
    + rewrite (validateFile_record _ _ _ _ Hrp Hrec Hcat). unfold output, fst.
      intros [H|H]; [other_message H|].
      apply printed_fail_inv, category_error_inv in H.
      unfold categoryLocals, checkCategory in H. rewrite has_absent in H.
      destruct (get parsed "category") as [v|] eqn:Hget; [|contradiction].
      cbn [absent negb] in H.
      destruct (includes VALID_CATEGORIES (Some v)) eqn:Hin; [contradiction|].
      cbn [negb ToString_value] in H.
      destruct (ToString v) as [text'|] eqn:Htext; [|contradiction].
      destruct H as [H|[]]. exists v.
      split; [reflexivity|]. split; [exact Hin|].
      change (categoryMessage text' = categoryMessage text) in H.
      apply categoryMessage_inj in H. rewrite Htext, H. reflexivity.
    + rewrite (validateFile_throws _ _ _ _ Hrp Hrec Hcat). unfold output, fst.
      intros [H|[]]. other_message H.
  - intros (v & Hget & Hin & Htext).
    destruct (categoryLocals_invalid _ _ _ Hget Hin Htext) as [Hcat Hlocals].
    rewrite (validateFile_record _ _ _ _ Hrp Hrec Hcat). unfold output, fst.
    right. apply printed_In_error. rewrite fieldLocals_errors, Hlocals.
    do 5 (apply in_or_app; right). apply in_or_app. left. left. reflexivity.
Qed.

(** ** A key the script does not know *)

Lemma getOwn_insert_other (before after : list (string * JSON)) (key k : string)
    (v : JSON) :
  key <> k -> getOwn (before ++ (key, v) :: after) k = getOwn (before ++ after) k.
Proof.
  intros Hk. induction before as [|[k' v'] rest IH]; cbn [app getOwn].
  - apply String.eqb_neq in Hk. rewrite Hk. reflexivity.
  - rewrite IH. reflexivity.
Qed.

Lemma get_withMember (position : nat) (parsed : JSON) (key k : string) (v : JSON) :
  key <> k -> get (withMember position parsed key v) k = get parsed k.
Proof.
  intros Hk. destruct parsed as [| | | | |members]; try reflexivity.
  cbn [withMember get]. rewrite (getOwn_insert_other _ _ _ _ _ Hk), firstn_skipn.
  reflexivity.
Qed.

Lemma unknown_not_known (key : string) :
  Set_has knownFields key = false ->
  key <> "id" /\ key <> "name" /\ key <> "description" /\ key <> "category"
  /\ key <> "supplement" /\ key <> "examples".
Proof.
  intros H. repeat split; intros ->; vm_compute in H; discriminate.
Qed.

(** The checks of the known fields do not see the new member. *)
Lemma checks_withMember (position : nat) (filename : string) (parsed : JSON)
    (key : string) (v : JSON) :
  Set_has knownFields key = false ->
  let parsed' := withMember position parsed key v in
  categoryConverts parsed' = categoryConverts parsed
  /\ checkId filename parsed' start = checkId filename parsed start
  /\ checkName parsed' start = checkName parsed start
  /\ checkSupplement parsed' start = checkSupplement parsed start
  /\ checkDescription parsed' start = checkDescription parsed start
  /\ categoryLocals parsed' = categoryLocals parsed
  /\ checkExamples parsed' start = checkExamples parsed start.
Proof.
  intros Hkey parsed'.
  destruct (unknown_not_known key Hkey) as (Hid & Hname & Hdesc & Hcat & Hsup & Hex).
  unfold categoryConverts, checkId, checkName, checkSupplement, checkDescription,
    categoryLocals, checkCategory, checkExamples, has, parsed'.
  rewrite (get_withMember _ _ _ _ _ Hid), (get_withMember _ _ _ _ _ Hname),
    (get_withMember _ _ _ _ _ Hsup), (get_withMember _ _ _ _ _ Hdesc),
    (get_withMember _ _ _ _ _ Hcat), (get_withMember _ _ _ _ _ Hex).
  repeat split; reflexivity.
Qed.

(** The check of the keys finds the new one, where it stands. *)
Lemma checkUnknown_withMember (position : nat) (parsed : JSON) (key : string) (v : JSON) :
  isRecord parsed = true ->
  Set_has knownFields key = false ->
  exists earlier later,
    warnings (checkUnknown parsed start) = earlier ++ later
    /\ warnings (checkUnknown (withMember position parsed key v) start)
       = earlier
         ++ ("Unknown field " +++ quoted key +++ " (will be ignored on import)") :: later.
Proof.
  intros Hrec Hkey. destruct parsed as [| | | | |members]; try discriminate.
  set (unknown := fun keys : list string =>
         map (fun k => "Unknown field " +++ quoted k +++ " (will be ignored on import)")
             (filter (fun k => negb (Set_has knownFields k)) keys)).
  exists (unknown (map fst (firstn position members))),
         (unknown (map fst (skipn position members))).
  rewrite !checkUnknown_eq. cbn [warnings withMember Object_keys]. split.
  - rewrite <- (firstn_skipn position members) at 1.
    unfold unknown. rewrite map_app, filter_app, map_app. reflexivity.
  - unfold unknown. rewrite map_app, filter_app, map_app.
    cbn [map fst filter]. rewrite Hkey. reflexivity.
Qed.

(** X13: a key outside the six known ones costs one warning and nothing
    else, wherever it stands among the keys of the record.  When a record
    is validated to the end, the same record with one more member under
    an unknown key is validated to the end as well, with the same lines
    of errors and the same identifier, and with one more warning, the one
    that names the key. *)
Theorem X13_unknown_key_is_one_warning (JSON_parse : string -> result JSON)
    (fs fs' : FileSystem) (filename : string) (parsed : JSON) (position : nat)
    (key : string) (v : JSON) (r : Report) :
  holds JSON_parse fs filename parsed ->
  holds JSON_parse fs' filename (withMember position parsed key v) ->
  isRecord parsed = true ->
  Set_has knownFields key = false ->
  validated JSON_parse fs filename r ->
  validated JSON_parse fs' filename
    {| errorCount := errorCount r;
       warningCount := S (warningCount r);
       reportedId := reportedId r |}
  /\ In (warnLine ("Unknown field " +++ quoted key +++ " (will be ignored on import)"))
        (output (validateFile JSON_parse fs' filename))
  /\ (forall msg,
         In (failLine msg) (output (validateFile JSON_parse fs' filename))
         <-> In (failLine msg) (output (validateFile JSON_parse fs filename))).
Proof.
  intros Hholds Hholds' Hrec Hkey Hval.
  destruct (validated_record _ _ _ _ _ Hholds Hrec Hval) as (Hcat & Hv & ->).
  destruct (checks_withMember position filename parsed key v Hkey)
    as (Hcat' & Hid & Hname & Hsup & Hdesc & Hcategory & Hex).
  destruct (checkUnknown_withMember position parsed key v Hrec Hkey)
    as (earlier & later & Hold & Hnew).
  assert (Hrec' : isRecord (withMember position parsed key v) = true).
  { destruct parsed; try discriminate. reflexivity. }
  rewrite <- Hcat' in Hcat.
  apply readAndParse_holds in Hholds'.
  pose proof (validateFile_record JSON_parse fs' filename _ Hholds' Hrec' Hcat) as Hv'.
  cbv zeta in Hv, Hv'. rewrite fieldLocals_id in Hv'.
  set (l := merge (checkFilename filename start) (fieldLocals filename parsed)) in *.
  set (l' := merge (checkFilename filename start)
               (fieldLocals filename (withMember position parsed key v))) in *.
  assert (Herrors : errors l' = errors l).
  { unfold l, l'. rewrite !fieldLocals_errors, Hid, Hname, Hsup, Hdesc, Hcategory, Hex.
    reflexivity. }
  assert (Hwarnings : exists first last,
             warnings l = first ++ last
             /\ warnings l'
                = first
                  ++ ("Unknown field " +++ quoted key +++ " (will be ignored on import)")
                     :: last).
  { unfold l, l'.
    rewrite !fieldLocals_warnings, Hid, Hname, Hsup, Hdesc, Hcategory, Hex, Hold, Hnew.
    eexists. exists later. rewrite !app_assoc. split; reflexivity. }
  destruct Hwarnings as (first & last & Hw & Hw').
  split; [|split].
  - unfold validated. rewrite Hv'. unfold completes, snd.
    cbn [errorCount warningCount reportedId].
    rewrite Herrors, Hid, Hw, Hw', !length_app. cbn [List.length].
    rewrite Nat.add_succ_r. reflexivity.
  - rewrite Hv'. unfold output, fst. right. apply printed_In_warning.
    rewrite Hw'. apply in_or_app. right. left. reflexivity.
  - intros msg. rewrite Hv, Hv'. unfold output, fst. rewrite Herrors. split.
    + intros [H|H]; [other_message H|].
      right. apply printed_In_error. apply (printed_fail_inv _ _ _ H).
    + intros [H|H]; [other_message H|].
      right. apply printed_In_error. apply (printed_fail_inv _ _ _ H).
Qed.

(** ** The lines of a run *)

Lemma printed_stdout (es ws : list string) (s : string) : ~ In (Stderr s) (printed es ws).
Proof.
  assert (Hmap : forall (f : string -> call) l,
             (forall x, f x <> Stderr s) -> ~ In (Stderr s) (map f l)).
  { intros f l Hf H. apply in_map_iff in H. destruct H as [x [Hx _]].
    exact (Hf x Hx). }
  assert (Hfail : forall x, failLine x <> Stderr s) by (intros x; discriminate).
  assert (Hwarn : forall x, warnLine x <> Stderr s) by (intros x; discriminate).
  unfold printed. intros H.
  destruct es as [|e es]; destruct ws as [|w ws];
    [destruct H as [H|[]]; discriminate| | |];
    apply in_app_or in H; destruct H as [H|H];
    solve [exact (Hmap _ _ Hfail H) | exact (Hmap _ _ Hwarn H)].
Qed.

Lemma validateFile_stdout (JSON_parse : string -> result JSON) (fs : FileSystem)
    (filename s : string) :
  ~ In (Stderr s) (output (validateFile JSON_parse fs filename)).
Proof.
  destruct (validateFile_cases JSON_parse fs filename) as [(es & ws & i & E)|E];
    rewrite E; unfold output, fst; intros [H|H]; try discriminate.
  - exact (printed_stdout _ _ _ H).
  - contradiction.
Qed.

Lemma sections_stdout (JSON_parse : string -> result JSON) (fs : FileSystem)
    (files : list string) (s : string) :
  ~ In (Stderr s) (flat_map (fun f => output (validateFile JSON_parse fs f)) files).
Proof.
  intros H. apply in_flat_map in H. destruct H as [f [_ H]].
  exact (validateFile_stdout _ _ _ _ H).
Qed.

Lemma crossFileSection_stdout (m : IdMap) (s : string) :
  ~ In (Stderr s) (crossFileSection m).
Proof.
  unfold crossFileSection. intros [H|H]; [discriminate|].
  apply in_app_or in H. destruct H as [H|H].
  - apply in_map_iff in H. destruct H as [x [Hx _]]. discriminate.
  - destruct (_ =? 0)%nat; [destruct H as [H|[]]; discriminate|contradiction].
Qed.

Lemma discovered_nil (entries : list string) :
  discovered entries = []
  <-> forall f, In f entries -> Str.endsWith f ".json" = false.
Proof.
  split.
  - intros Hnone f Hin. destruct (Str.endsWith f ".json") eqn:E; [|reflexivity].
    assert (H : In f (discovered entries)) by (apply discovered_In; auto).
    rewrite Hnone in H. contradiction.
  - intros Hall. destruct (discovered entries) as [|f files] eqn:E; [reflexivity|].
    assert (H : In f (discovered entries)) by (rewrite E; left; reflexivity).
    apply discovered_In in H. destruct H as [Hin Hends].
    rewrite (Hall f Hin) in Hends. discriminate.
Qed.

(** X15: the script writes to the standard error in one case only: the
    directory is read and none of its entries ends with [.json]; the line
    is then the message of line 28.  The diagnostics of the files, the
    cross-file section and the summary all go to the standard output, and
    a directory that cannot be read leaves no line at all. *)
Theorem X15_stderr_only_when_nothing_is_found (JSON_parse : string -> result JSON)
    (fs : FileSystem) (s : string) :
  In (Stderr s) (output (main JSON_parse fs))
  <-> s = "No .json files found in strategies/"
      /\ exists entries,
           readdir fs = Ok entries
           /\ forall f, In f entries -> Str.endsWith f ".json" = false.
Proof.
  destruct (readdir fs) as [entries|failure] eqn:Hdir.
  - destruct (discovered entries) as [|f0 files0] eqn:E.
    + rewrite (main_nothing JSON_parse fs entries Hdir E). unfold output, fst. split.
      * intros [H|[]]. injection H as <-. split; [reflexivity|].
        exists entries. split; [reflexivity|]. apply discovered_nil, E.
      * intros [-> _]. left. reflexivity.
    + assert (Hsome : ~ exists entries',
                 Ok entries = Ok entries'
                 /\ forall f, In f entries' -> Str.endsWith f ".json" = false).
      { intros (entries' & Heq & Hall). injection Heq as <-.
        apply discovered_nil in Hall. rewrite E in Hall. discriminate. }
      split; [|intros [_ H]; contradiction (Hsome H)].
      intros H. exfalso.
      destruct (filesLoop_cases JSON_parse fs (discovered entries))
        as [[rs Hall]|(before & rs & f & after & Hfiles & Hall & Hf)].
      * assert (Hne : discovered entries <> []) by (rewrite E; discriminate).
        rewrite (main_run JSON_parse fs entries rs Hdir Hne Hall) in H.
        unfold output, fst in H.
        apply in_app_or in H. destruct H as [H|H]; [exact (sections_stdout _ _ _ _ H)|].
        apply in_app_or in H. destruct H as [H|H]; [exact (crossFileSection_stdout _ _ H)|].
        destruct H as [H|[]]. discriminate.
      * assert (Hmain : output (main JSON_parse fs)
                        = flat_map (fun g => output (validateFile JSON_parse fs g)) before
                          ++ [header f]).
        { unfold main. rewrite Hdir. fold (discovered entries). rewrite Hfiles.
          replace (List.length (before ++ f :: after) =? 0)%nat with false
            by (symmetry; apply Nat.eqb_neq; rewrite length_app; cbn [List.length]; lia).
          rewrite bind_ret.
          rewrite (filesLoop_throws _ _ _ _ _ _ _ _ Hall Hf). reflexivity. }
        rewrite Hmain in H.
        apply in_app_or in H. destruct H as [H|H]; [exact (sections_stdout _ _ _ _ H)|].
        destruct H as [H|[]]. discriminate.
  - assert (Hmain : main JSON_parse fs = ([], Throw failure)).
    { unfold main. rewrite Hdir. reflexivity. }
    rewrite Hmain. unfold output, fst. split; [contradiction|].
    intros (_ & entries & H & _). discriminate.
Qed.

Lemma prefix_append (p s : string) : String.prefix p (p +++ s) = true.
Proof.
  induction p as [|c p IH]; [destruct s; reflexivity|].
  cbn [String.append String.prefix].
  destruct (ascii_dec c c) as [_|Hne]; [exact IH|contradiction].
Qed.

Lemma isHeader_header (filename : string) : isHeader (header filename) = true.
Proof. unfold isHeader, header. rewrite <- append_assoc. apply prefix_append. Qed.


Lemma printed_headers (es ws : list string) : filter isHeader (printed es ws) = [].
Proof.
  assert (Hmap : forall (f : string -> call) l,
             (forall x, isHeader (f x) = false) -> filter isHeader (map f l) = []).
  { intros f l Hf. induction l as [|x l IH]; [reflexivity|].
    cbn [map filter]. rewrite Hf. exact IH. }
  assert (Hfail : forall x, isHeader (failLine x) = false) by (intros x; reflexivity).
  assert (Hwarn : forall x, isHeader (warnLine x) = false) by (intros x; reflexivity).
  unfold printed.
  destruct es as [|e es]; destruct ws as [|w ws]; [reflexivity| | |];
    rewrite filter_app, (Hmap _ _ Hfail), (Hmap _ _ Hwarn); reflexivity.
Qed.

Lemma validateFile_headers (JSON_parse : string -> result JSON) (fs : FileSystem)
    (filename : string) :
  filter isHeader (output (validateFile JSON_parse fs filename)) = [header filename].
Proof.
  destruct (validateFile_cases JSON_parse fs filename) as [(es & ws & i & E)|E];
    rewrite E; unfold output, fst; cbn [filter]; rewrite isHeader_header.
  - rewrite printed_headers. reflexivity.
  - reflexivity.
Qed.

Lemma sections_headers (JSON_parse : string -> result JSON) (fs : FileSystem)
    (files : list string) :
  filter isHeader (flat_map (fun f => output (validateFile JSON_parse fs f)) files)
  = map header files.
Proof.
  induction files as [|f files IH]; [reflexivity|].
  cbn [flat_map map]. rewrite filter_app, validateFile_headers, IH. reflexivity.
Qed.

Lemma crossFileSection_headers (m : IdMap) : filter isHeader (crossFileSection m) = [].
Proof.
  unfold crossFileSection. cbn [filter].
  replace (isHeader (Stdout (Str.LF +++ "Cross-file checks:"))) with false
    by (vm_compute; reflexivity).
  rewrite filter_app.
  assert (Hdup : forall l, filter isHeader (map duplicateLine l) = []).
  { induction l as [|x l IH]; [reflexivity|]. cbn [map filter].
    replace (isHeader (duplicateLine x)) with false by reflexivity. exact IH. }
  rewrite Hdup. destruct (_ =? 0)%nat; reflexivity.
Qed.

(** X16: a run opens one section for each file it validates, in the
    sorted order of discovery, and never one twice: the headers in its
    output are those of the discovered files up to the point the run has
    reached.  A run that ends by [process.exit] has validated every
    discovered file, whatever the earlier files gave; only an exception
    leaves files without a section. *)
Theorem X16_one_section_per_validated_file (JSON_parse : string -> result JSON)
    (fs : FileSystem) (entries : list string) :
  readdir fs = Ok entries ->
  exists reached left,
    discovered entries = reached ++ left
    /\ filter isHeader (output (main JSON_parse fs)) = map header reached
    /\ (forall code, completes (main JSON_parse fs) = Exit code -> left = [])
    /\ (forall message, completes (main JSON_parse fs) = Throw message -> reached <> []).
Proof.
  intros Hdir.
  destruct (filesLoop_cases JSON_parse fs (discovered entries))
    as [[rs Hall]|(before & rs & f & after & Hfiles & Hall & Hf)].
  - exists (discovered entries), []. rewrite app_nil_r. split; [reflexivity|].
    destruct (discovered entries) as [|f0 files0] eqn:E.
    + rewrite (main_nothing JSON_parse fs entries Hdir E).
      split; [reflexivity|]. split; [reflexivity|discriminate].
    + assert (Hne : discovered entries <> []) by (rewrite E; discriminate).
      rewrite <- E in Hall |- *.
      rewrite (main_run JSON_parse fs entries rs Hdir Hne Hall).
      set (sections := flat_map _ (discovered entries)).
      unfold output, completes, fst, snd. subst sections.
      rewrite !filter_app, sections_headers, crossFileSection_headers.
      split; [|split; [reflexivity|discriminate]].
      cbn [filter]. 
      replace (isHeader (summaryLine _ _)) with false by reflexivity.
      rewrite !app_nil_r. reflexivity.
  - exists (before ++ [f]), after. rewrite <- app_assoc. split; [exact Hfiles|].
    assert (Hmain : main JSON_parse fs
                    = (flat_map (fun g => output (validateFile JSON_parse fs g)) before
                       ++ [header f],
                       Throw "Cannot convert object to primitive value")).
    { unfold main. rewrite Hdir. fold (discovered entries). rewrite Hfiles.
      replace (List.length (before ++ f :: after) =? 0)%nat with false
        by (symmetry; apply Nat.eqb_neq; rewrite length_app; cbn [List.length]; lia).
      rewrite bind_ret.
      rewrite (filesLoop_throws _ _ _ _ _ _ _ _ Hall Hf). reflexivity. }
    rewrite Hmain. set (sections := flat_map _ before).
    unfold output, completes, fst, snd. subst sections.
    rewrite filter_app, sections_headers, map_app. cbn [filter map].
    rewrite isHeader_header.
    split; [reflexivity|]. split; [discriminate|].
    intros _ _ H. destruct before; discriminate.
Qed.

(** ** The further properties on the sample documents *)

(** X2 on [inversion-focus.json]. *)
Lemma X2_stem_of_a_discovered_file_witness :
  Str.endsWith "inversion-focus.json" ".json" = true
  /\ ((("inversion-focus.json" = ".json" /\ stemOf "inversion-focus.json" = ".json")
       \/ exists stem,
            stem <> EmptyString
            /\ "inversion-focus.json" = stem +++ ".json"
            /\ stemOf "inversion-focus.json" = stem)).
Proof.
  split; [vm_compute; reflexivity|].
  apply (X2_stem_of_a_discovered_file "inversion-focus.json"); vm_compute; reflexivity.
Defined.

(** X3 on the document of [inversion-focus.json]. *)
Lemma X3_conformant_identifier_is_hyphenated_witness :
  conformant "inversion-focus.json" Sample.inversionFocus = true
  /\ exists first rest,
       isSegment first = true
       /\ Forall (fun segment => isSegment segment = true) rest
       /\ "inversion-focus.json" = first +++ hyphenated rest +++ ".json"
       /\ idOf Sample.inversionFocus = Some (first +++ hyphenated rest).
Proof.
  split; [vm_compute; reflexivity|].
  apply (X3_conformant_identifier_is_hyphenated "inversion-focus.json"
           Sample.inversionFocus).
  vm_compute; reflexivity.
Defined.

(** X5 on the two listings of a directory with two files. *)
Lemma X5_discovery_ignores_listing_order_witness :
  Permutation ["general.json"; "copy.json"] ["copy.json"; "general.json"]
  /\ discovered ["general.json"; "copy.json"] = discovered ["copy.json"; "general.json"].
Proof.
  split; [apply perm_swap|].
  apply (X5_discovery_ignores_listing_order ["general.json"; "copy.json"]
           ["copy.json"; "general.json"]).
  apply perm_swap.
Defined.

(** X6 on [general.json], a file without any diagnostic. *)
Lemma X6_ok_exactly_for_a_clean_report_witness :
  validated Sample.parse Sample.seeded "general.json" (clean (Some "general"))
  /\ In (Stdout "  ok") (output (validateFile Sample.parse Sample.seeded "general.json"))
  /\ List.length (output (validateFile Sample.parse Sample.seeded "general.json")) = 2.
Proof.
  assert (Hval : validated Sample.parse Sample.seeded "general.json"
                   (clean (Some "general")))
    by (unfold validated; vm_compute; reflexivity).
  split; [exact Hval|].
  destruct (X6_ok_exactly_for_a_clean_report Sample.parse Sample.seeded "general.json"
              (clean (Some "general")) Hval) as [Hok Hlen].
  split; [apply Hok; split; reflexivity|exact Hlen].
Defined.

(** X7 on the five files of [mixed]: one passes, four fail. *)
Lemma X7_summary_counts_files_and_warnings_witness :
  readdir Sample.mixed
  = Ok ["general.json"; "broken.json"; "list.json"; "gone.json"; "anonymous.json"]
  /\ exists before,
       output (main Sample.parse Sample.mixed)
       = before ++ [Stdout (Str.LF +++ "Results: 1 passed, 4 failed, 0 warnings")].
Proof.
  split; [vm_compute; reflexivity|].
  refine (proj2 (X7_summary_counts_files_and_warnings Sample.parse Sample.mixed
                   ["general.json"; "broken.json"; "list.json"; "gone.json";
                    "anonymous.json"]
                   Sample.mixedReports eq_refl _ _)).
  - vm_compute. discriminate.
  - reports.
Defined.

(** X8 on the two valid strategies of [seeded]. *)
Lemma X8_status_zero_means_all_passed_and_unique_witness :
  readdir Sample.seeded = Ok ["inversion-focus.json"; "README.md"; "general.json"]
  /\ (completes (main Sample.parse Sample.seeded) = Exit 0
      <-> (Forall (fun r => errorCount r = 0)
             [clean (Some "general"); clean (Some "inversion-focus")]
           /\ forall identifier,
               List.length
                 (filesOf identifier
                    (combine (discovered ["inversion-focus.json"; "README.md";
                                          "general.json"])
                       [clean (Some "general"); clean (Some "inversion-focus")]))
               <= 1)).
Proof.
  split; [vm_compute; reflexivity|].
  apply (X8_status_zero_means_all_passed_and_unique Sample.parse Sample.seeded
           ["inversion-focus.json"; "README.md"; "general.json"]
           [clean (Some "general"); clean (Some "inversion-focus")] eq_refl).
  - vm_compute. discriminate.
  - reports.
Defined.

(** X10 on [interrupted]: the run stops in [odd.json]; [zebra.json] is
    never validated. *)
Lemma X10_exception_cuts_the_run_short_witness :
  discovered ["zebra.json"; "odd.json"; "general.json"]
  = ["general.json"] ++ "odd.json" :: ["zebra.json"]
  /\ main Sample.parse Sample.interrupted
     = (flat_map (fun g => output (validateFile Sample.parse Sample.interrupted g))
          ["general.json"]
        ++ [header "odd.json"],
        Throw "Cannot convert object to primitive value").
Proof.
  split; [vm_compute; reflexivity|].
  apply (X10_exception_cuts_the_run_short Sample.parse Sample.interrupted
           ["zebra.json"; "odd.json"; "general.json"] ["general.json"]
           [clean (Some "general")] "odd.json" ["zebra.json"]).
  - vm_compute; reflexivity.
  - vm_compute; reflexivity.
  - constructor; [unfold validated; vm_compute; reflexivity|constructor].
  - vm_compute; reflexivity.
Defined.

(** X11 on [gone.json], which cannot be read: the failure is an error of
    the file. *)
Lemma X11_main_exits_or_throws_witness :
  readFile Sample.mixed "gone.json" = Err "EACCES: permission denied"
  /\ exists r,
       validated Sample.parse Sample.mixed "gone.json" r
       /\ reportedId r = None
       /\ 0 < errorCount r
       /\ In (failLine ("Invalid JSON: " +++ "EACCES: permission denied"))
             (output (validateFile Sample.parse Sample.mixed "gone.json")).
Proof.
  split; [vm_compute; reflexivity|].
  destruct (X11_main_exits_or_throws Sample.parse Sample.mixed)
    as (_ & _ & _ & Hcaught & _).
  apply Hcaught. left. vm_compute; reflexivity.
Defined.

(** X12 on the document whose second example lacks [commands]. *)
Lemma X12_diagnostics_add_up_witness :
  errorsCalledFor "half-example.json" Sample.halfExample = 1
  /\ warningsCalledFor "half-example.json" Sample.halfExample = 0
  /\ validated Sample.parse (Sample.single "half-example.json" Sample.halfExample)
       "half-example.json"
       {| errorCount := 1; warningCount := 0; reportedId := Some "half-example" |}.
Proof.
  split; [vm_compute; reflexivity|]. split; [vm_compute; reflexivity|].
  assert (Hholds : holds Sample.parse
                     (Sample.single "half-example.json" Sample.halfExample)
                     "half-example.json" Sample.halfExample).
  { exists (Sample.stringify Sample.halfExample). split; vm_compute; reflexivity. }
  destruct (X12_diagnostics_add_up Sample.parse _ _ _ Hholds eq_refl) as [Hreport _].
  apply Hreport. split; vm_compute; reflexivity.
Defined.

(** X13 on [general.json] with a member under the key [1], which
    [Object.keys] lists first. *)
Lemma X13_unknown_key_is_one_warning_witness :
  validated Sample.parseMore (Sample.single "general.json" Sample.general)
    "general.json" (clean (Some "general"))
  /\ Object_keys Sample.tagged
     = ["1"; "id"; "name"; "description"; "category"; "supplement"; "examples"]
  /\ validated Sample.parseMore (Sample.single "general.json" Sample.tagged)
       "general.json"
       {| errorCount := 0; warningCount := 1; reportedId := Some "general" |}
  /\ In (warnLine ("Unknown field " +++ quoted "1" +++ " (will be ignored on import)"))
        (output (validateFile Sample.parseMore
                   (Sample.single "general.json" Sample.tagged) "general.json")).
Proof.
  assert (Hval : validated Sample.parseMore (Sample.single "general.json" Sample.general)
                   "general.json" (clean (Some "general")))
    by (unfold validated; vm_compute; reflexivity).
  split; [exact Hval|]. split; [vm_compute; reflexivity|].
  assert (Hholds : holds Sample.parseMore (Sample.single "general.json" Sample.general)
                     "general.json" Sample.general).
  { exists (Sample.stringify Sample.general). split; vm_compute; reflexivity. }
  assert (Hholds' : holds Sample.parseMore (Sample.single "general.json" Sample.tagged)
                      "general.json" (withMember 0 Sample.general "1" (JString "someone"))).
  { exists (Sample.stringify Sample.tagged). split; vm_compute; reflexivity. }
  destruct (X13_unknown_key_is_one_warning Sample.parseMore
              (Sample.single "general.json" Sample.general)
              (Sample.single "general.json" Sample.tagged)
              "general.json" Sample.general 0 "1" (JString "someone")
              (clean (Some "general")) Hholds Hholds' eq_refl eq_refl Hval)
    as (Hreport & Hline & _).
  split; [exact Hreport|exact Hline].
Defined.

(** X14 on a [category] that is [null]: the line names it [null]. *)
Lemma X14_category_line_witness :
  get Sample.nullCategory "category" = Some JNull
  /\ In (failLine (categoryMessage "null"))
        (output (validateFile Sample.parseMore
                   (Sample.single "null-category.json" Sample.nullCategory)
                   "null-category.json")).
Proof.
  split; [vm_compute; reflexivity|].
  apply (X14_category_line Sample.parseMore
           (Sample.single "null-category.json" Sample.nullCategory)
           "null-category.json" Sample.nullCategory "null").
  - exists (Sample.stringify Sample.nullCategory). split; vm_compute; reflexivity.
  - reflexivity.
  - exists JNull. repeat split; vm_compute; reflexivity.
Defined.

(** X16 on [interrupted]: two sections, none for [zebra.json]. *)
Lemma X16_one_section_per_validated_file_witness :
  readdir Sample.interrupted = Ok ["zebra.json"; "odd.json"; "general.json"]
  /\ exists reached left,
       discovered ["zebra.json"; "odd.json"; "general.json"] = reached ++ left
       /\ filter isHeader (output (main Sample.parse Sample.interrupted))
          = map header reached
       /\ (forall code,
              completes (main Sample.parse Sample.interrupted) = Exit code -> left = [])
       /\ (forall message,
              completes (main Sample.parse Sample.interrupted) = Throw message ->
              reached <> []).
Proof.
  split; [vm_compute; reflexivity|].
  apply (X16_one_section_per_validated_file Sample.parse Sample.interrupted
           ["zebra.json"; "odd.json"; "general.json"]).
  vm_compute; reflexivity.
Defined.
